(** * The guided-interview controller of frontend/app.js

    A shallow embedding of the guided mode of the interview coach's
    front end: the values that come back from the server (parsed JSON),
    the rendering helpers [escapeHtml] and [renderTurnScore], the
    feedback and summary panels, and the handlers that drive
    [guidedState].  Handlers are functions on an explicit [World]
    (the [guidedState] object plus the page elements they write);
    asynchronous calls are split at their [await]: the part that runs
    when the call is issued, and the part that runs when the reply
    settles.

    The setup check [checkSetup] is modelled from the moment its request
    settles.  Texts are held as their UTF-8 bytes.  The free-form
    recorder ([startRecording], [renderResults]) and the speech synthesis
    behind [speakQuestion] are left out; of the playback only its
    settling, which enables the answer button, is kept.  Replies are
    arbitrary JSON, with two limits stated where they apply: a
    [questions] member, when truthy, is an array, and objects have no
    members named [length] or [toString]. *)

From stdpp Require Import base list strings pretty.
From Stdlib Require Import Ascii Lia.

Open Scope string_scope.
Open Scope nat_scope.
Open Scope list_scope.
Set Warnings "-register-all".

(* ================================================================== *)
(** ** JavaScript values *)
(* ================================================================== *)

Module JS.

(** A number, as far as the front end observes one: how it compares with
    zero (which gives its truthiness: [0], [-0] are falsy) and its decimal
    text (what a template literal interpolates). *)
Record number := Num { num_sign : comparison; num_text : string }.

Definition of_nat (n : nat) : number :=
  Num (if n is O then Eq else Gt) (pretty n).

(** What [JSON.parse] can produce, plus [undefined].  An object is the
    table of its own members. *)
Inductive value :=
| VUndefined
| VNull
| VBool (b : bool)
| VNum (n : number)
| VStr (s : string)
| VArr (items : list value)
| VObj (members : list (string * value)).

(** Thrown errors carry their [message]. *)
Inductive completion (A : Type) :=
| Ok (a : A)
| Throw (message : string).
Arguments Ok {A} a.
Arguments Throw {A} message.

#[global] Instance completion_ret : MRet completion := @Ok.
#[global] Instance completion_bind : MBind completion := λ A B k c,
  match c with
  | Ok a => k a
  | Throw m => Throw m
  end.

#[global] Instance completion_fmap : FMap completion := λ A B f c,
  match c with
  | Ok a => Ok (f a)
  | Throw m => Throw m
  end.

(** The message of the engine's [TypeError]; its wording is the engine's. *)
Definition type_error : string := "TypeError".

(** [Boolean(v)], the test of [if (v)], [v ? a : b], [!v], [v && w], [v || w]. *)
Definition truthy (v : value) : bool :=
  match v with
  | VUndefined | VNull => false
  | VBool b => b
  | VNum n => if num_sign n is Eq then false else true
  | VStr s => if s is EmptyString then false else true
  | VArr _ | VObj _ => true
  end.

(** [v == null] (so also [v === undefined || v === null]). *)
Definition nullish (v : value) : bool :=
  match v with
  | VUndefined | VNull => true
  | _ => false
  end.

(** [v || w] and [v ?? w]. *)
Definition or_else (v w : value) : value := if truthy v then v else w.
Definition coalesce (v w : value) : value := if nullish v then w else v.

Fixpoint own (members : list (string * value)) (k : string) : option value :=
  match members with
  | [] => None
  | (k', v) :: rest => if decide (k' = k) then Some v else own rest k
  end.

(** Number of UTF-16 code units of a text held as UTF-8 bytes: one per
    character, two for a character of four bytes. *)
Fixpoint utf16_length (s : string) : nat :=
  match s with
  | EmptyString => 0
  | String c rest =>
      let b := Ascii.nat_of_ascii c in
      ((if (b <? 128) || (192 <=? b) then 1 else 0)
       + (if 240 <=? b then 1 else 0)
       + utf16_length rest)%nat
  end.

(** [v.k] for the member names the front end reads.  Reading a member of
    [null] or [undefined] throws; [length] is the only one of these names
    that arrays and strings define themselves. *)
Definition get (v : value) (k : string) : completion value :=
  match v with
  | VUndefined | VNull => Throw type_error
  | VObj members => Ok (default VUndefined (own members k))
  | VArr items =>
      Ok (if decide (k = "length") then VNum (of_nat (length items)) else VUndefined)
  | VStr s =>
      Ok (if decide (k = "length") then VNum (of_nat (utf16_length s)) else VUndefined)
  | VBool _ | VNum _ => Ok VUndefined
  end.

(** [v?.k] *)
Definition get_opt (v : value) (k : string) : value :=
  match get v k with
  | Ok w => w
  | Throw _ => VUndefined
  end.

(** [typeof v === 'boolean'] *)
Definition is_boolean (v : value) : bool :=
  match v with
  | VBool _ => true
  | _ => false
  end.

(** [v === null] *)
Definition is_null (v : value) : bool :=
  match v with
  | VNull => true
  | _ => false
  end.

Definition join (sep : string) (parts : list string) : string :=
  match parts with
  | [] => EmptyString
  | p :: rest => fold_left (fun acc q => acc +:+ sep +:+ q) rest p
  end.

(** [String(v)].  An array joins its elements with commas, [null] and
    [undefined] elements as empty text; a plain object prints as
    [[object Object]] (objects are taken not to shadow [toString]). *)
Fixpoint to_string (v : value) : string :=
  match v with
  | VUndefined => "undefined"
  | VNull => "null"
  | VBool true => "true"
  | VBool false => "false"
  | VNum n => num_text n
  | VStr s => s
  | VArr items =>
      join "," (map (fun x => if nullish x then EmptyString else to_string x) items)
  | VObj _ => "[object Object]"
  end.

(** [a.join(sep)] *)
Definition array_join (sep : string) (items : list value) : string :=
  join sep (map (fun x => if nullish x then EmptyString else to_string x) items).

(** [v.length > 0] for [v] already known truthy.  Numbers and booleans
    have no [length]; an object is taken to have no member of that name. *)
Definition has_items (v : value) : bool :=
  match v with
  | VArr (_ :: _) => true
  | VStr (String _ _) => true
  | _ => false
  end.

(** The elements [v.forEach] / [v.map] visit; only arrays have these
    methods. *)
Definition elements (v : value) : completion (list value) :=
  match v with
  | VArr items => Ok items
  | _ => Throw type_error
  end.

Fixpoint map_m {A B} (f : A → completion B) (l : list A) : completion (list B) :=
  match l with
  | [] => Ok []
  | x :: rest => y ← f x; ys ← map_m f rest; Ok (y :: ys)
  end.

End JS.

(* ================================================================== *)
(** ** Rendering helpers *)
(* ================================================================== *)

Module Html.
Import JS.

(** A double quote, and a double-quoted attribute value. *)
Definition dq : string := String (Ascii.ascii_of_nat 34) EmptyString.
Definition q (s : string) : string := dq +:+ s +:+ dq.

(** What the page gives back as [innerHTML] for an element whose content
    was set through [textContent]: the text with [&], the no-break space
    (bytes 194 160), [<] and [>] replaced by their entities. *)
Fixpoint serialize_text (s : string) : string :=
  match s with
  | EmptyString => EmptyString
  | String c rest =>
      if decide (c = "&"%char) then "&amp;" +:+ serialize_text rest
      else if decide (c = "<"%char) then "&lt;" +:+ serialize_text rest
      else if decide (c = ">"%char) then "&gt;" +:+ serialize_text rest
      else if decide (c = "194"%char) then
        match rest with
        | String c' rest' =>
            if decide (c' = "160"%char) then "&nbsp;" +:+ serialize_text rest'
            else String c (serialize_text rest)
        | EmptyString => String c (serialize_text rest)
        end
      else String c (serialize_text rest)
  end.

(** [escapeHtml(s)]: the empty string for a falsy argument, else the
    serialization of a scratch [div] whose [textContent] is [s]. *)
Definition escapeHtml (s : value) : string :=
  if truthy s then serialize_text (to_string s) else EmptyString.

(** [s.replace(/_/g, ' ')]; only strings have the method. *)
Fixpoint underscores_to_spaces (s : string) : string :=
  match s with
  | EmptyString => EmptyString
  | String c rest =>
      String (if decide (c = "_"%char) then " "%char else c) (underscores_to_spaces rest)
  end.

Definition replace_underscores (v : value) : completion string :=
  match v with
  | VStr s => Ok (underscores_to_spaces s)
  | _ => Throw type_error
  end.

(** The three local helpers of [renderTurnScore]. *)
Definition met (o : value) : completion value :=
  if truthy o then
    m ← get o "met";
    Ok (if is_boolean m then m else VNull)
  else Ok VNull.

Definition note (o : value) : completion value :=
  if truthy o then
    n ← get o "note";
    Ok (if truthy n then n else VStr EmptyString)
  else Ok (VStr EmptyString).

Definition badge (m : value) : string :=
  if is_null m then "<span class=" +:+ q "badge" +:+ ">—</span>"
  else if truthy m then "<span class=" +:+ q "badge yes" +:+ ">Y</span>"
  else "<span class=" +:+ q "badge no" +:+ ">N</span>".

(** The five rubric rows: label and member name. *)
Definition rubric : list (string * string) :=
  [ ("Direct answer (10s)", "direct_answer_10s");
    ("Specific example", "specific_example");
    ("Quantified impact", "quantified_impact");
    ("Tradeoffs", "tradeoffs");
    ("Crisp takeaway", "crisp_takeaway") ].

(** One entry of [items]: [[label, met(t.key), note(t.key)]]. *)
Definition item (t : value) (row : string * string) : completion (string * value * value) :=
  o ← get t row.2;
  m ← met o;
  n ← note o;
  Ok (row.1, m, n).

Definition rubric_item (it : string * value * value) : string :=
  let '(label, m, n) := it in
  "<div class=" +:+ q "rubric-item" +:+ ">" +:+ badge m +:+ " " +:+ label
  +:+ (if truthy n then ": " +:+ escapeHtml n else EmptyString) +:+ "</div>".

Definition pace_line (t : value) : completion string :=
  wpm ← get t "pace_wpm";
  if nullish wpm then Ok EmptyString
  else
    rating ← get t "pace_rating";
    paceLabel ← (if truthy rating then replace_underscores rating else Ok "—");
    feedback ← get t "pace_feedback";
    Ok ("<div class=" +:+ q "rubric-item" +:+ ">Pace: " +:+ to_string wpm
        +:+ " WPM (" +:+ paceLabel +:+ ")"
        +:+ (if truthy feedback then ": " +:+ escapeHtml feedback else EmptyString)
        +:+ "</div>").

Definition relevance_line (t : value) : completion string :=
  r ← get t "relevance_to_role";
  if truthy r then
    m ← get r "met";
    n ← get r "note";
    if negb (nullish m) || truthy n then
      Ok ("<div class=" +:+ q "rubric-item" +:+ ">Relevance to role: " +:+ badge m
          +:+ (if truthy n then " " +:+ escapeHtml n else EmptyString) +:+ "</div>")
    else Ok EmptyString
  else Ok EmptyString.

(** [renderTurnScore(t)]: the markup of one scored turn. *)
Definition renderTurnScore (t : value) : completion string :=
  items ← map_m (item t) rubric;
  text ← get t "text";
  let html := "<div class=" +:+ q "turn" +:+ "><div class=" +:+ q "turn-text" +:+ ">"
              +:+ escapeHtml (or_else text (VStr EmptyString)) +:+ "</div>" in
  let html := html +:+ "<div class=" +:+ q "rubric" +:+ ">" in
  let html := fold_left (fun acc it => acc +:+ rubric_item it) items html in
  filler ← get t "filler_count";
  let html := html +:+ "<div class=" +:+ q "rubric-item" +:+ ">Filler count: "
              +:+ to_string (coalesce filler (VStr "—")) +:+ "</div>" in
  pauses ← get t "long_pauses";
  let html := html +:+ "<div class=" +:+ q "rubric-item" +:+ ">Long pauses: "
              +:+ to_string (coalesce pauses (VStr "—")) +:+ "</div>" in
  trailing ← get t "trailing_sentences";
  let html := html +:+ "<div class=" +:+ q "rubric-item" +:+ ">Trailing/ramble: "
              +:+ badge trailing +:+ "</div>" in
  pace ← pace_line t;
  let html := html +:+ pace in
  relevance ← relevance_line t;
  let html := html +:+ relevance in
  qtype ← get t "question_type";
  let html := html +:+ "<div class=" +:+ q "rubric-item" +:+ ">Question type: "
              +:+ escapeHtml (or_else qtype (VStr "—")) +:+ "</div>" in
  feedback ← get t "actionable_feedback";
  let html :=
    if truthy feedback then
      html +:+ "<div class=" +:+ q "rubric-item" +:+ " style=" +:+ q "margin-top:0.5rem"
      +:+ "><strong>Feedback:</strong> " +:+ escapeHtml feedback +:+ "</div>"
    else html in
  Ok (html +:+ "</div></div>").

End Html.

(* ================================================================== *)
(** ** Text helpers: [trim] and [split(/\s+/)] *)
(* ================================================================== *)

Module Text.

(** The white-space characters of [trim] and of the pattern [\s], in
    UTF-8: tab, line feed, vertical tab, form feed, carriage return,
    space, U+00A0, U+1680, U+2000 to U+200A, U+2028, U+2029, U+202F,
    U+205F, U+3000 and U+FEFF. *)
Definition ascii_space (c : ascii) : bool :=
  let b := Ascii.nat_of_ascii c in
  ((9 <=? b) && (b <=? 13) || (b =? 32))%nat.

Definition space3 (c1 c2 c3 : ascii) : bool :=
  let b1 := Ascii.nat_of_ascii c1 in
  let b2 := Ascii.nat_of_ascii c2 in
  let b3 := Ascii.nat_of_ascii c3 in
  ((b1 =? 225) && (b2 =? 154) && (b3 =? 128)
   || (b1 =? 226) && (b2 =? 128)
      && ((128 <=? b3) && (b3 <=? 138) || (b3 =? 168) || (b3 =? 169) || (b3 =? 175))
   || (b1 =? 226) && (b2 =? 129) && (b3 =? 159)
   || (b1 =? 227) && (b2 =? 128) && (b3 =? 128)
   || (b1 =? 239) && (b2 =? 187) && (b3 =? 191))%nat.

(** The text cut into characters as far as white space goes: each piece
    is one white-space character (flag [true]) or one other byte. *)
Fixpoint pieces (s : string) : list (bool * string) :=
  match s with
  | EmptyString => []
  | String c1 rest =>
      if ascii_space c1 then (true, String c1 EmptyString) :: pieces rest
      else
        match rest with
        | String c2 rest2 =>
            if ((Ascii.nat_of_ascii c1 =? 194) && (Ascii.nat_of_ascii c2 =? 160))%nat
            then (true, String c1 (String c2 EmptyString)) :: pieces rest2
            else
              match rest2 with
              | String c3 rest3 =>
                  if space3 c1 c2 c3
                  then (true, String c1 (String c2 (String c3 EmptyString))) :: pieces rest3
                  else (false, String c1 EmptyString) :: pieces rest
              | EmptyString => (false, String c1 EmptyString) :: pieces rest
              end
        | EmptyString => [(false, String c1 EmptyString)]
        end
  end.

Definition unpieces (ps : list (bool * string)) : string :=
  fold_right (fun p acc => p.2 +:+ acc) EmptyString ps.

Fixpoint drop_spaces (ps : list (bool * string)) : list (bool * string) :=
  match ps with
  | (true, _) :: rest => drop_spaces rest
  | _ => ps
  end.

(** [s.trim()] *)
Definition trim (s : string) : string :=
  unpieces (rev (drop_spaces (rev (drop_spaces (pieces s))))).

(** [s.split(/\s+/)]: the stretches between maximal runs of white
    space, the empty ones at either end included. *)
Fixpoint split_go (ps : list (bool * string)) (cur : string) (in_gap : bool) : list string :=
  match ps with
  | [] => [cur]
  | (true, _) :: rest =>
      if in_gap then split_go rest cur true
      else cur :: split_go rest EmptyString true
  | (false, b) :: rest => split_go rest (cur +:+ b) false
  end.

Definition split_spaces (s : string) : list string :=
  split_go (pieces s) EmptyString false.

(** [s.split(/\s+/).filter(Boolean).length] *)
Definition word_count (s : string) : nat :=
  length (filter (fun w => w ≠ EmptyString) (split_spaces s)).

End Text.

(* ================================================================== *)
(** ** The guided session *)
(* ================================================================== *)

Module Guided.
Import JS Html.

(** [guidedState.mode] *)
Inductive Mode := Setup | Active | Analyzing | Feedback | Complete.

#[global] Instance Mode_eq_dec : EqDecision Mode.
Proof. solve_decision. Defined.

(** [guidedState].  [sessionResults] is a JavaScript array written by
    index: [None] is a slot that was never written. *)
Record GuidedState := {
  mode : Mode;
  questions : list value;
  currentQuestionIndex : nat;
  jobDescription : string;
  sessionResults : list (option value);
}.

(** [a[i]]: [undefined] for a hole or past the end. *)
Definition read_slot (a : list (option value)) (i : nat) : value :=
  default VUndefined (mjoin (a !! i)).

Definition read_item (a : list value) (i : nat) : value :=
  default VUndefined (a !! i).

(** [a[i] = v]: in range the slot is replaced; past the end the array
    grows, leaving holes below [i]. *)
Definition write_slot (a : list (option value)) (i : nat) (v : value) : list (option value) :=
  if decide (i < length a) then <[i := Some v]> a
  else a ++ replicate (i - length a) None ++ [Some v].

(** [a.filter(Boolean)]: holes and falsy entries are dropped. *)
Fixpoint filter_Boolean (a : list (option value)) : list value :=
  match a with
  | [] => []
  | Some v :: rest => if truthy v then v :: filter_Boolean rest else filter_Boolean rest
  | None :: rest => filter_Boolean rest
  end.

(** [setStatus(msg, type)] leaves the status line with this text and
    class suffix; it is displayed when the text is not empty. *)
Record Status := { status_text : string; status_kind : string }.

Definition clear : Status := {| status_text := EmptyString; status_kind := EmptyString |}.

(** The page elements the guided handlers write. *)
Record Page := {
  status : Status;
  questionList : string;          (* questionListEl.innerHTML *)
  btnStartGuided_disabled : bool;
  guidedSetup_shown : bool;       (* style.display of the three panels *)
  guidedActive_shown : bool;
  sessionSummary_shown : bool;
  questionProgress : string;      (* textContent *)
  currentQuestion : string;       (* textContent *)
  btnStartAnswer_disabled : bool;
  btnStopAnswer_disabled : bool;
  guidedFeedback : string;        (* innerHTML *)
  btnTryAgain_shown : bool;
  btnNextQuestion_shown : bool;
  sessionSummary : string;        (* innerHTML *)
  addQuestionInput : string;      (* value *)
}.

(** [mediaRecorder]: not yet created, recording, or stopped. *)
Inductive Recorder := NoRecorder | Recording | Inactive.

(** One [uploadAndAnalyze] call as issued: the size of the blob and the
    options it was given. *)
Record AnalyzeCall := {
  blob_size : nat;
  questionText : value;
  call_jobDescription : string;
}.

(** Which list of questions [loadQuestions] asked for. *)
Inductive QuestionsCall := AdaptQuestions (jd : string) | DefaultQuestions.

Record World := {
  gs : GuidedState;
  page : Page;
  mediaRecorder : Recorder;
  audioChunks : list nat;                 (* sizes of the chunks kept *)
  analyzeCalls : list AnalyzeCall;        (* requests sent to /api/analyze, oldest first *)
  questionsCalls : list QuestionsCall;    (* requests sent for questions, oldest first *)
}.

(** Field updates. *)
Definition with_mode (m : Mode) (g : GuidedState) : GuidedState :=
  {| mode := m; questions := questions g; currentQuestionIndex := currentQuestionIndex g;
     jobDescription := jobDescription g; sessionResults := sessionResults g |}.
Definition with_questions (qs : list value) (g : GuidedState) : GuidedState :=
  {| mode := mode g; questions := qs; currentQuestionIndex := currentQuestionIndex g;
     jobDescription := jobDescription g; sessionResults := sessionResults g |}.
Definition with_index (i : nat) (g : GuidedState) : GuidedState :=
  {| mode := mode g; questions := questions g; currentQuestionIndex := i;
     jobDescription := jobDescription g; sessionResults := sessionResults g |}.
Definition with_jobDescription (jd : string) (g : GuidedState) : GuidedState :=
  {| mode := mode g; questions := questions g; currentQuestionIndex := currentQuestionIndex g;
     jobDescription := jd; sessionResults := sessionResults g |}.
Definition with_results (rs : list (option value)) (g : GuidedState) : GuidedState :=
  {| mode := mode g; questions := questions g; currentQuestionIndex := currentQuestionIndex g;
     jobDescription := jobDescription g; sessionResults := rs |}.

Definition on_gs (f : GuidedState → GuidedState) (w : World) : World :=
  {| gs := f (gs w); page := page w; mediaRecorder := mediaRecorder w;
     audioChunks := audioChunks w; analyzeCalls := analyzeCalls w;
     questionsCalls := questionsCalls w |}.
Definition on_page (f : Page → Page) (w : World) : World :=
  {| gs := gs w; page := f (page w); mediaRecorder := mediaRecorder w;
     audioChunks := audioChunks w; analyzeCalls := analyzeCalls w;
     questionsCalls := questionsCalls w |}.
Definition with_recorder (r : Recorder) (chunks : list nat) (w : World) : World :=
  {| gs := gs w; page := page w; mediaRecorder := r;
     audioChunks := chunks; analyzeCalls := analyzeCalls w;
     questionsCalls := questionsCalls w |}.
Definition send_analyze (c : AnalyzeCall) (w : World) : World :=
  {| gs := gs w; page := page w; mediaRecorder := mediaRecorder w;
     audioChunks := audioChunks w; analyzeCalls := analyzeCalls w ++ [c];
     questionsCalls := questionsCalls w |}.
Definition send_questions (c : QuestionsCall) (w : World) : World :=
  {| gs := gs w; page := page w; mediaRecorder := mediaRecorder w;
     audioChunks := audioChunks w; analyzeCalls := analyzeCalls w;
     questionsCalls := questionsCalls w ++ [c] |}.

Definition set_status (x : Status) (p : Page) : Page :=
  {| status := x; questionList := questionList p;
     btnStartGuided_disabled := btnStartGuided_disabled p;
     guidedSetup_shown := guidedSetup_shown p; guidedActive_shown := guidedActive_shown p;
     sessionSummary_shown := sessionSummary_shown p;
     questionProgress := questionProgress p; currentQuestion := currentQuestion p;
     btnStartAnswer_disabled := btnStartAnswer_disabled p;
     btnStopAnswer_disabled := btnStopAnswer_disabled p;
     guidedFeedback := guidedFeedback p; btnTryAgain_shown := btnTryAgain_shown p;
     btnNextQuestion_shown := btnNextQuestion_shown p; sessionSummary := sessionSummary p;
     addQuestionInput := addQuestionInput p |}.
Definition set_questionList (x : string) (p : Page) : Page :=
  {| status := status p; questionList := x;
     btnStartGuided_disabled := btnStartGuided_disabled p;
     guidedSetup_shown := guidedSetup_shown p; guidedActive_shown := guidedActive_shown p;
     sessionSummary_shown := sessionSummary_shown p;
     questionProgress := questionProgress p; currentQuestion := currentQuestion p;
     btnStartAnswer_disabled := btnStartAnswer_disabled p;
     btnStopAnswer_disabled := btnStopAnswer_disabled p;
     guidedFeedback := guidedFeedback p; btnTryAgain_shown := btnTryAgain_shown p;
     btnNextQuestion_shown := btnNextQuestion_shown p; sessionSummary := sessionSummary p;
     addQuestionInput := addQuestionInput p |}.
Definition set_btnStartGuided_disabled (x : bool) (p : Page) : Page :=
  {| status := status p; questionList := questionList p; btnStartGuided_disabled := x;
     guidedSetup_shown := guidedSetup_shown p; guidedActive_shown := guidedActive_shown p;
     sessionSummary_shown := sessionSummary_shown p;
     questionProgress := questionProgress p; currentQuestion := currentQuestion p;
     btnStartAnswer_disabled := btnStartAnswer_disabled p;
     btnStopAnswer_disabled := btnStopAnswer_disabled p;
     guidedFeedback := guidedFeedback p; btnTryAgain_shown := btnTryAgain_shown p;
     btnNextQuestion_shown := btnNextQuestion_shown p; sessionSummary := sessionSummary p;
     addQuestionInput := addQuestionInput p |}.
Definition set_guidedSetup_shown (x : bool) (p : Page) : Page :=
  {| status := status p; questionList := questionList p;
     btnStartGuided_disabled := btnStartGuided_disabled p; guidedSetup_shown := x;
     guidedActive_shown := guidedActive_shown p;
     sessionSummary_shown := sessionSummary_shown p;
     questionProgress := questionProgress p; currentQuestion := currentQuestion p;
     btnStartAnswer_disabled := btnStartAnswer_disabled p;
     btnStopAnswer_disabled := btnStopAnswer_disabled p;
     guidedFeedback := guidedFeedback p; btnTryAgain_shown := btnTryAgain_shown p;
     btnNextQuestion_shown := btnNextQuestion_shown p; sessionSummary := sessionSummary p;
     addQuestionInput := addQuestionInput p |}.
Definition set_guidedActive_shown (x : bool) (p : Page) : Page :=
  {| status := status p; questionList := questionList p;
     btnStartGuided_disabled := btnStartGuided_disabled p;
     guidedSetup_shown := guidedSetup_shown p; guidedActive_shown := x;
     sessionSummary_shown := sessionSummary_shown p;
     questionProgress := questionProgress p; currentQuestion := currentQuestion p;
     btnStartAnswer_disabled := btnStartAnswer_disabled p;
     btnStopAnswer_disabled := btnStopAnswer_disabled p;
     guidedFeedback := guidedFeedback p; btnTryAgain_shown := btnTryAgain_shown p;
     btnNextQuestion_shown := btnNextQuestion_shown p; sessionSummary := sessionSummary p;
     addQuestionInput := addQuestionInput p |}.
Definition set_sessionSummary_shown (x : bool) (p : Page) : Page :=
  {| status := status p; questionList := questionList p;
     btnStartGuided_disabled := btnStartGuided_disabled p;
     guidedSetup_shown := guidedSetup_shown p; guidedActive_shown := guidedActive_shown p;
     sessionSummary_shown := x; questionProgress := questionProgress p;
     currentQuestion := currentQuestion p;
     btnStartAnswer_disabled := btnStartAnswer_disabled p;
     btnStopAnswer_disabled := btnStopAnswer_disabled p;
     guidedFeedback := guidedFeedback p; btnTryAgain_shown := btnTryAgain_shown p;
     btnNextQuestion_shown := btnNextQuestion_shown p; sessionSummary := sessionSummary p;
     addQuestionInput := addQuestionInput p |}.
Definition set_questionProgress (x : string) (p : Page) : Page :=
  {| status := status p; questionList := questionList p;
     btnStartGuided_disabled := btnStartGuided_disabled p;
     guidedSetup_shown := guidedSetup_shown p; guidedActive_shown := guidedActive_shown p;
     sessionSummary_shown := sessionSummary_shown p; questionProgress := x;
     currentQuestion := currentQuestion p;
     btnStartAnswer_disabled := btnStartAnswer_disabled p;
     btnStopAnswer_disabled := btnStopAnswer_disabled p;
     guidedFeedback := guidedFeedback p; btnTryAgain_shown := btnTryAgain_shown p;
     btnNextQuestion_shown := btnNextQuestion_shown p; sessionSummary := sessionSummary p;
     addQuestionInput := addQuestionInput p |}.
Definition set_currentQuestion (x : string) (p : Page) : Page :=
  {| status := status p; questionList := questionList p;
     btnStartGuided_disabled := btnStartGuided_disabled p;
     guidedSetup_shown := guidedSetup_shown p; guidedActive_shown := guidedActive_shown p;
     sessionSummary_shown := sessionSummary_shown p;
     questionProgress := questionProgress p; currentQuestion := x;
     btnStartAnswer_disabled := btnStartAnswer_disabled p;
     btnStopAnswer_disabled := btnStopAnswer_disabled p;
     guidedFeedback := guidedFeedback p; btnTryAgain_shown := btnTryAgain_shown p;
     btnNextQuestion_shown := btnNextQuestion_shown p; sessionSummary := sessionSummary p;
     addQuestionInput := addQuestionInput p |}.
Definition set_btnStartAnswer_disabled (x : bool) (p : Page) : Page :=
  {| status := status p; questionList := questionList p;
     btnStartGuided_disabled := btnStartGuided_disabled p;
     guidedSetup_shown := guidedSetup_shown p; guidedActive_shown := guidedActive_shown p;
     sessionSummary_shown := sessionSummary_shown p;
     questionProgress := questionProgress p; currentQuestion := currentQuestion p;
     btnStartAnswer_disabled := x; btnStopAnswer_disabled := btnStopAnswer_disabled p;
     guidedFeedback := guidedFeedback p; btnTryAgain_shown := btnTryAgain_shown p;
     btnNextQuestion_shown := btnNextQuestion_shown p; sessionSummary := sessionSummary p;
     addQuestionInput := addQuestionInput p |}.
Definition set_btnStopAnswer_disabled (x : bool) (p : Page) : Page :=
  {| status := status p; questionList := questionList p;
     btnStartGuided_disabled := btnStartGuided_disabled p;
     guidedSetup_shown := guidedSetup_shown p; guidedActive_shown := guidedActive_shown p;
     sessionSummary_shown := sessionSummary_shown p;
     questionProgress := questionProgress p; currentQuestion := currentQuestion p;
     btnStartAnswer_disabled := btnStartAnswer_disabled p; btnStopAnswer_disabled := x;
     guidedFeedback := guidedFeedback p; btnTryAgain_shown := btnTryAgain_shown p;
     btnNextQuestion_shown := btnNextQuestion_shown p; sessionSummary := sessionSummary p;
     addQuestionInput := addQuestionInput p |}.
Definition set_guidedFeedback (x : string) (p : Page) : Page :=
  {| status := status p; questionList := questionList p;
     btnStartGuided_disabled := btnStartGuided_disabled p;
     guidedSetup_shown := guidedSetup_shown p; guidedActive_shown := guidedActive_shown p;
     sessionSummary_shown := sessionSummary_shown p;
     questionProgress := questionProgress p; currentQuestion := currentQuestion p;
     btnStartAnswer_disabled := btnStartAnswer_disabled p;
     btnStopAnswer_disabled := btnStopAnswer_disabled p; guidedFeedback := x;
     btnTryAgain_shown := btnTryAgain_shown p;
     btnNextQuestion_shown := btnNextQuestion_shown p; sessionSummary := sessionSummary p;
     addQuestionInput := addQuestionInput p |}.
Definition set_btnTryAgain_shown (x : bool) (p : Page) : Page :=
  {| status := status p; questionList := questionList p;
     btnStartGuided_disabled := btnStartGuided_disabled p;
     guidedSetup_shown := guidedSetup_shown p; guidedActive_shown := guidedActive_shown p;
     sessionSummary_shown := sessionSummary_shown p;
     questionProgress := questionProgress p; currentQuestion := currentQuestion p;
     btnStartAnswer_disabled := btnStartAnswer_disabled p;
     btnStopAnswer_disabled := btnStopAnswer_disabled p;
     guidedFeedback := guidedFeedback p; btnTryAgain_shown := x;
     btnNextQuestion_shown := btnNextQuestion_shown p; sessionSummary := sessionSummary p;
     addQuestionInput := addQuestionInput p |}.
Definition set_btnNextQuestion_shown (x : bool) (p : Page) : Page :=
  {| status := status p; questionList := questionList p;
     btnStartGuided_disabled := btnStartGuided_disabled p;
     guidedSetup_shown := guidedSetup_shown p; guidedActive_shown := guidedActive_shown p;
     sessionSummary_shown := sessionSummary_shown p;
     questionProgress := questionProgress p; currentQuestion := currentQuestion p;
     btnStartAnswer_disabled := btnStartAnswer_disabled p;
     btnStopAnswer_disabled := btnStopAnswer_disabled p;
     guidedFeedback := guidedFeedback p; btnTryAgain_shown := btnTryAgain_shown p;
     btnNextQuestion_shown := x; sessionSummary := sessionSummary p;
     addQuestionInput := addQuestionInput p |}.
Definition set_sessionSummary (x : string) (p : Page) : Page :=
  {| status := status p; questionList := questionList p;
     btnStartGuided_disabled := btnStartGuided_disabled p;
     guidedSetup_shown := guidedSetup_shown p; guidedActive_shown := guidedActive_shown p;
     sessionSummary_shown := sessionSummary_shown p;
     questionProgress := questionProgress p; currentQuestion := currentQuestion p;
     btnStartAnswer_disabled := btnStartAnswer_disabled p;
     btnStopAnswer_disabled := btnStopAnswer_disabled p;
     guidedFeedback := guidedFeedback p; btnTryAgain_shown := btnTryAgain_shown p;
     btnNextQuestion_shown := btnNextQuestion_shown p; sessionSummary := x;
     addQuestionInput := addQuestionInput p |}.
Definition set_addQuestionInput (x : string) (p : Page) : Page :=
  {| status := status p; questionList := questionList p;
     btnStartGuided_disabled := btnStartGuided_disabled p;
     guidedSetup_shown := guidedSetup_shown p; guidedActive_shown := guidedActive_shown p;
     sessionSummary_shown := sessionSummary_shown p;
     questionProgress := questionProgress p; currentQuestion := currentQuestion p;
     btnStartAnswer_disabled := btnStartAnswer_disabled p;
     btnStopAnswer_disabled := btnStopAnswer_disabled p;
     guidedFeedback := guidedFeedback p; btnTryAgain_shown := btnTryAgain_shown p;
     btnNextQuestion_shown := btnNextQuestion_shown p; sessionSummary := sessionSummary p;
     addQuestionInput := x |}.

(** *** Replies of the server *)

(** A reply as the front end reads it: [res.ok], [res.statusText], the
    body as text, and the body parsed as JSON when it is JSON. *)
Record Response := {
  ok : bool;
  statusText : string;
  body : string;
  json : option value;
}.

(** How a [fetch] settles: rejected with an error, or a reply. *)
Inductive Settled := Rejected (message : string) | Replied (r : Response).

(** The message of the error [res.json()] and [JSON.parse] raise. *)
Definition syntax_error : string := "SyntaxError".

Definition parse (r : Response) : completion value :=
  match json r with
  | Some data => Ok data
  | None => Throw syntax_error
  end.

(** The message [uploadAndAnalyze] builds from a reply that is not ok. *)
Definition reply_error (r : Response) : string :=
  let msg := VStr (statusText r) in
  let attempt : completion value :=
    j ← parse r;
    d ← get j "detail";
    match d with
    | VArr items =>
        parts ← map_m (fun x => m ← get x "msg"; Ok (coalesce m x)) items;
        Ok (VStr (array_join ", " parts))
    | _ => Ok (coalesce d msg)
    end in
  match attempt with
  | Ok m => to_string m
  | Throw _ => to_string (or_else (VStr (body r)) msg)
  end.

(** *** Panels *)

Definition rewrite_block (title : string) (v : value) : string :=
  if truthy v then
    "<div class=" +:+ q "rewrite-block" +:+ "><h4>" +:+ title +:+ "</h4><p>"
    +:+ escapeHtml v +:+ "</p></div>"
  else EmptyString.

Definition rewrite_html (r : value) : completion string :=
  tight ← get r "tight_45s";
  expanded ← get r "expanded_2min";
  Ok ("<div class=" +:+ q "turn" +:+ ">" +:+ rewrite_block "45-second version" tight
      +:+ rewrite_block "2-minute version" expanded +:+ "</div>").

Definition transcript_html (data : value) : completion string :=
  segments ← get data "segments";
  if truthy segments && has_items segments then
    items ← elements segments;
    texts ← map_m (fun s => get s "text") items;
    let fullTranscript := Text.trim (array_join " " texts) in
    let shown := escapeHtml (VStr fullTranscript) in
    count ← get segments "length";
    Ok ("<div class=" +:+ q "transcript-block" +:+ "><h3>Full transcript</h3>"
        +:+ "<p class=" +:+ q "turn-text transcript-full" +:+ ">"
        +:+ (if shown is EmptyString then "(no speech detected)" else shown) +:+ "</p>"
        +:+ "<p class=" +:+ q "muted" +:+ " style=" +:+ q "font-size:0.8rem;margin-top:0.25rem"
        +:+ ">" +:+ to_string count +:+ " segment(s), "
        +:+ pretty (Text.word_count fullTranscript) +:+ " words</p>"
        +:+ "</div>")
  else Ok EmptyString.

Definition rewrites_html (data : value) : completion string :=
  rewrites ← get data "rewrites";
  if truthy rewrites && has_items rewrites then
    items ← elements rewrites;
    blocks ← map_m rewrite_html items;
    Ok ("<h3 style=" +:+ q "margin-top:1rem" +:+ ">Rewrite suggestions</h3>"
        +:+ fold_left (fun acc b => acc +:+ b) blocks EmptyString)
  else Ok EmptyString.

(** The test of [showGuidedFeedback]:
    [data && data.scores && data.scores.turns && data.scores.turns.length > 0]. *)
Definition has_turns (data : value) : completion bool :=
  if truthy data then
    scores ← get data "scores";
    if truthy scores then
      turns ← get scores "turns";
      Ok (truthy turns && has_items turns)
    else Ok false
  else Ok false.

Definition no_feedback : string :=
  "<p class=" +:+ q "muted" +:+ ">No feedback available.</p>".

(** The markup [showGuidedFeedback] puts in the feedback panel for the
    entry [data] read at the current index. *)
Definition feedback_html (data : value) : completion string :=
  b ← has_turns data;
  if b : bool then
    transcript ← transcript_html data;
    scores ← get data "scores";
    summary ← get scores "overall_summary";
    turns ← get scores "turns";
    items ← elements turns;
    rendered ← map_m renderTurnScore items;
    rewrites ← rewrites_html data;
    Ok ("<div class=" +:+ q "section" +:+ "><h2>Feedback</h2>"
        +:+ transcript
        +:+ (if truthy summary then
               "<p style=" +:+ q "margin-bottom:1rem;color:var(--muted)" +:+ ">"
               +:+ escapeHtml summary +:+ "</p>"
             else EmptyString)
        +:+ fold_left (fun acc h => acc +:+ h) rendered EmptyString
        +:+ rewrites
        +:+ "</div>")
  else Ok no_feedback.

(** One entry of the session summary: the [i]-th kept result [r]. *)
Definition summary_entry (qs : list value) (i : nat) (r : value) : string :=
  let question := or_else (read_item qs i) (VStr ("Question " +:+ pretty (i + 1))) in
  let summary := get_opt (get_opt r "scores") "overall_summary" in
  "<div class=" +:+ q "turn" +:+ "><strong>" +:+ escapeHtml question +:+ "</strong><br>"
  +:+ (if truthy summary then
         "<span class=" +:+ q "muted" +:+ ">" +:+ escapeHtml summary +:+ "</span>"
       else EmptyString)
  +:+ "</div>".

Definition summary_html (g : GuidedState) : string :=
  let results := filter_Boolean (sessionResults g) in
  "<h2>Session complete</h2><p>You answered " +:+ pretty (length results)
  +:+ " question(s).</p>"
  +:+ fold_left (fun acc e => acc +:+ e) (imap (summary_entry (questions g)) results) EmptyString.

Definition question_list_html (qs : list value) : string :=
  "<ol>" +:+ join EmptyString (map (fun x => "<li>" +:+ escapeHtml x +:+ "</li>") qs) +:+ "</ol>".

(** *** Handlers *)

Definition setStatus (msg kind : string) (w : World) : World :=
  on_page (set_status {| status_text := msg; status_kind := kind |}) w.

Definition clearStatus (w : World) : World := setStatus EmptyString EmptyString w.

(** [setMode(mode)]: [guided] is [mode === 'guided']. *)
Definition setMode (guided : bool) (w : World) : World :=
  on_page (fun p => set_guidedSetup_shown guided
                      (set_guidedActive_shown false
                         (set_sessionSummary_shown false p))) w.

Definition renderQuestionList (w : World) : World :=
  match questions (gs w) with
  | [] => on_page (set_questionList ("<p class=" +:+ q "muted" +:+ ">Load questions first.</p>")) w
  | qs => on_page (fun p => set_btnStartGuided_disabled false
                              (set_questionList (question_list_html qs) p)) w
  end.

(** [loadQuestions], up to its [await]: [field] is the text of the job
    description field. *)
Definition loadQuestions (field : string) (w : World) : World :=
  let jd := Text.trim field in
  let w := setStatus "Loading questions..." "loading" w in
  send_questions (if jd is EmptyString then DefaultQuestions else AdaptQuestions jd) w.

Definition call_jd (c : QuestionsCall) : string :=
  match c with
  | AdaptQuestions jd => jd
  | DefaultQuestions => EmptyString
  end.

(** [data.questions || []].  The member is an array when it is there
    and truthy; any other truthy value is outside this model ([None]). *)
Definition questions_or_empty (v : value) : option (list value) :=
  if truthy v then
    match v with
    | VArr items => Some items
    | _ => None
    end
  else Some [].

(** [loadQuestions], from the moment its request settles; [jd] is the
    trimmed job description the call was made with. *)
Definition loadQuestions_settled (jd : string) (s : Settled) (w : World) : option World :=
  let reply : completion value :=
    match s with
    | Rejected m => Throw m
    | Replied r => data ← parse r; get data "questions"
    end in
  match reply with
  | Ok member =>
      qs ← questions_or_empty member;
      let w := on_gs (fun g => with_jobDescription jd (with_questions qs g)) w in
      Some (clearStatus (renderQuestionList w))
  | Throw m => Some (setStatus ("Error: " +:+ m) "error" w)
  end.

(** [addCustomQuestion]: reads and clears the input field. *)
Definition addCustomQuestion (w : World) : World :=
  let text := Text.trim (addQuestionInput (page w)) in
  if text is EmptyString then w
  else
    let w := on_gs (fun g => with_questions (questions g ++ [VStr text]) g) w in
    renderQuestionList (on_page (set_addQuestionInput EmptyString) w).

(** [e.textContent = v] *)
Definition text_content (v : value) : string :=
  if nullish v then EmptyString else to_string v.

(** [showCurrentQuestion]: the answer button stays disabled until the
    playback started here settles (see [playback_settled]). *)
Definition showCurrentQuestion (w : World) : World :=
  let g := gs w in
  let question := read_item (questions g) (currentQuestionIndex g) in
  let n := length (questions g) in
  let w := on_page (fun p =>
    set_btnStartAnswer_disabled true
      (set_currentQuestion (text_content question)
         (set_questionProgress
            ("Question " +:+ pretty (currentQuestionIndex g + 1) +:+ " of " +:+ pretty n) p))) w in
  if decide (mode g = Active) then w
  else on_page (set_btnStartAnswer_disabled false) w.

(** The [then] of [speakQuestion(q)] in [showCurrentQuestion]. *)
Definition playback_settled (w : World) : World :=
  on_page (set_btnStartAnswer_disabled false) w.

Definition startGuidedInterview (w : World) : World :=
  match questions (gs w) with
  | [] => w
  | _ =>
      let w := on_gs (fun g => with_results [] (with_index 0 (with_mode Active g))) w in
      let w := on_page (fun p =>
        set_btnNextQuestion_shown false
          (set_btnTryAgain_shown false
             (set_guidedFeedback EmptyString
                (set_guidedActive_shown true
                   (set_guidedSetup_shown false p))))) w in
      showCurrentQuestion w
  end.

(** [showGuidedFeedback]: when building the markup throws, nothing on
    the page has been written yet. *)
Definition showGuidedFeedback (w : World) : World * completion () :=
  let data := read_slot (sessionResults (gs w)) (currentQuestionIndex (gs w)) in
  match feedback_html data with
  | Ok html =>
      (on_page (fun p =>
         set_btnStartAnswer_disabled true
           (set_btnNextQuestion_shown true
              (set_btnTryAgain_shown true
                 (set_guidedFeedback html p)))) w, Ok ())
  | Throw m => (w, Throw m)
  end.

Definition onGuidedAnalyzeResult (data : value) (w : World) : World * completion () :=
  let w := on_gs (with_mode Feedback) w in
  let w :=
    if truthy data then
      on_gs (fun g => with_results (write_slot (sessionResults g) (currentQuestionIndex g) data) g) w
    else w in
  showGuidedFeedback w.

(** [uploadAndAnalyze(blob, options)], up to its [await]. *)
Definition uploadAndAnalyze (call : AnalyzeCall) (w : World) : World :=
  send_analyze call (setStatus "Transcribing and scoring..." "loading" w).

(** The data [uploadAndAnalyze] gets out of a settled request, or the
    error it jumps to its [catch] with. *)
Definition analyze_data (s : Settled) : completion value :=
  match s with
  | Rejected m => Throw m
  | Replied r => if ok r then parse r else Throw (reply_error r)
  end.

(** [uploadAndAnalyze], from the moment its request settles, for a call
    that passed [options.onSuccess]. *)
Definition uploadAndAnalyze_settled
    (onSuccess : value → World → World * completion ())
    (s : Settled) (w : World) : World * completion () :=
  let catch (m : string) (w : World) :=
    onSuccess VNull (setStatus ("Error: " +:+ m) "error" w) in
  match analyze_data s with
  | Ok data =>
      match onSuccess data w with
      | (w, Ok _) => (clearStatus w, Ok ())
      | (w, Throw m) => catch m w
      end
  | Throw m => catch m w
  end.

(** [onGuidedStartRecording], up to [getUserMedia]: [secure] tells
    whether [navigator.mediaDevices.getUserMedia] exists. *)
Definition onGuidedStartRecording (secure : bool) (w : World) : World :=
  if secure then w
  else setStatus "Microphone access requires a secure context." "error" w.

(** The [then] and the [catch] of [getUserMedia]. *)
Definition microphone_granted (w : World) : World :=
  let w := with_recorder Recording [] w in
  on_page (fun p => set_btnStopAnswer_disabled false (set_btnStartAnswer_disabled true p)) w.

Definition microphone_denied (message : string) (w : World) : World :=
  setStatus ("Microphone access denied: " +:+ message) "error" w.

(** [mediaRecorder.ondataavailable] *)
Definition ondataavailable (size : nat) (w : World) : World :=
  if decide (0 < size) then with_recorder (mediaRecorder w) (audioChunks w ++ [size]) w
  else w.

(** [mediaRecorder.onstop] of the guided recorder. *)
Definition onstop (w : World) : World * completion () :=
  let size := foldr Nat.add 0 (audioChunks w) in   (* blob.size *)
  if decide (0 < size) then
    let g := gs w in
    let question := read_item (questions g) (currentQuestionIndex g) in
    (uploadAndAnalyze {| blob_size := size; questionText := question;
                         call_jobDescription := jobDescription g |} w, Ok ())
  else
    let w := setStatus "No audio captured. Record for at least a few seconds." "error" w in
    showGuidedFeedback (on_gs (with_mode Feedback) w).

Definition onGuidedStopRecording (w : World) : World :=
  match mediaRecorder w with
  | Recording =>
      let w := with_recorder Inactive (audioChunks w) w in
      let w := on_page (fun p =>
        set_btnStopAnswer_disabled false (set_btnStartAnswer_disabled true p)) w in
      on_gs (with_mode Analyzing) w
  | NoRecorder | Inactive => w
  end.

Definition onTryAgain (w : World) : World :=
  let w := on_gs (with_mode Active) w in
  let w := on_page (fun p =>
    set_btnNextQuestion_shown false
      (set_btnTryAgain_shown false (set_guidedFeedback EmptyString p))) w in
  showCurrentQuestion w.

Definition showSessionSummary (w : World) : World :=
  let w := on_gs (with_mode Complete) w in
  on_page (fun p =>
    set_sessionSummary (summary_html (gs w))
      (set_sessionSummary_shown true (set_guidedActive_shown false p))) w.

Definition onNextQuestion (w : World) : World :=
  let w := on_gs (fun g => with_index (currentQuestionIndex g + 1) g) w in
  if decide (length (questions (gs w)) ≤ currentQuestionIndex (gs w))%nat then showSessionSummary w
  else
    let w := on_gs (with_mode Active) w in
    let w := on_page (fun p =>
      set_btnNextQuestion_shown false
        (set_btnTryAgain_shown false (set_guidedFeedback EmptyString p))) w in
    showCurrentQuestion w.

(** *** Events *)

(** What can happen to the page in guided mode: the clicks, and the
    callbacks of the recorder, of the microphone prompt, of question
    playback and of the two kinds of request.  A settling request names
    the call it answers by its position among the calls sent. *)
Inductive Event :=
| ClickMode (guided : bool)
| ClickLoadQuestions (field : string)
| QuestionsSettled (k : nat) (s : Settled)
| TypeQuestion (text : string)
| ClickAddQuestion
| ClickStartGuided
| PlaybackSettled
| ClickStartAnswer (secure : bool)
| MicrophoneGranted
| MicrophoneDenied (message : string)
| DataAvailable (size : nat)
| ClickStopAnswer
| RecorderStopped
| AnalyzeSettled (k : nat) (s : Settled)
| ClickTryAgain
| ClickNextQuestion.

(** An error that escapes a handler is dropped by the page; what the
    handler had done before stays. *)
Definition handle (e : Event) (w : World) : option World :=
  match e with
  | ClickMode guided => Some (setMode guided w)
  | ClickLoadQuestions field => Some (loadQuestions field w)
  | QuestionsSettled k s =>
      c ← questionsCalls w !! k;
      loadQuestions_settled (call_jd c) s w
  | TypeQuestion text => Some (on_page (set_addQuestionInput text) w)
  | ClickAddQuestion => Some (addCustomQuestion w)
  | ClickStartGuided => Some (startGuidedInterview w)
  | PlaybackSettled => Some (playback_settled w)
  | ClickStartAnswer secure => Some (onGuidedStartRecording secure w)
  | MicrophoneGranted => Some (microphone_granted w)
  | MicrophoneDenied m => Some (microphone_denied m w)
  | DataAvailable size => Some (ondataavailable size w)
  | ClickStopAnswer => Some (onGuidedStopRecording w)
  | RecorderStopped => Some (onstop w).1
  | AnalyzeSettled k s =>
      _ ← analyzeCalls w !! k;
      Some (uploadAndAnalyze_settled onGuidedAnalyzeResult s w).1
  | ClickTryAgain => Some (onTryAgain w)
  | ClickNextQuestion => Some (onNextQuestion w)
  end.

Fixpoint run (es : list Event) (w : World) : option World :=
  match es with
  | [] => Some w
  | e :: rest => w' ← handle e w; run rest w'
  end.

(** *** The setup check *)

(** The setup banner as [checkSetup] leaves it: its text, its class and
    whether it is displayed. *)
Record Banner := {
  banner_text : string;
  banner_class : string;
  banner_shown : bool;
}.

(** [checkSetup], from the moment its request to [/api/check] settles.
    Only reading a member of a [null] body can throw inside the [try]. *)
Definition checkSetup_settled (s : Settled) : Banner :=
  let attempt : completion Banner :=
    data ← match s with
           | Rejected m => Throw m
           | Replied r => parse r
           end;
    ffmpeg ← get data "ffmpeg";
    let missing := if truthy ffmpeg then [] else ["ffmpeg (brew install ffmpeg)"] in
    llm_ready ← get data "llm_ready";
    missing ← (if truthy llm_ready then Ok missing
               else
                 gemini ← get data "gemini_configured";
                 if truthy gemini
                 then Ok (missing ++ ["Gemini API key set but request may be failing"])
                 else
                   model ← get data "model";
                   Ok (missing
                       ++ ["LLM: Set GEMINI_API_KEY for cloud, or run Ollama (ollama serve && ollama pull "
                           +:+ to_string (or_else model (VStr "llama3.2")) +:+ ")"]));
    match missing with
    | [] =>
        gemini ← get data "gemini_configured";
        let provider := if truthy gemini then "Gemini" else "Ollama" in
        Ok {| banner_text := "Ready: ffmpeg and " +:+ provider +:+ " detected.";
              banner_class := "setup-banner ok"; banner_shown := true |}
    | _ =>
        Ok {| banner_text := "Before recording: " +:+ join ". " missing;
              banner_class := "setup-banner warn"; banner_shown := true |}
    end in
  match attempt with
  | Ok banner => banner
  | Throw _ =>
      {| banner_text :=
           "Could not reach server. Start with: cd backend && uvicorn main:app --port 8000";
         banner_class := "setup-banner warn"; banner_shown := true |}
  end.

(** [guidedState] as the script creates it. *)
Definition initial_state : GuidedState :=
  {| mode := Setup; questions := []; currentQuestionIndex := 0;
     jobDescription := EmptyString; sessionResults := [] |}.

End Guided.

(* ================================================================== *)
(** ** Notions used to state the properties *)
(* ================================================================== *)

Module Notions.
Import JS Html Guided.

(** What a settled analyze request hands to [options.onSuccess]: the
    parsed body of an ok reply, [null] from the [catch]. *)
Definition delivered (s : Settled) : value :=
  match analyze_data s with
  | Ok data => data
  | Throw _ => VNull
  end.

(** The world once a guided analyze request has settled as [s]. *)
Definition analysis_completes (s : Settled) (w : World) : World :=
  (uploadAndAnalyze_settled onGuidedAnalyzeResult s w).1.

(** The assignment guarded by [if (data)] in [onGuidedAnalyzeResult]. *)
Definition store (data : value) (g : GuidedState) : GuidedState :=
  if truthy data
  then with_results (write_slot (sessionResults g) (currentQuestionIndex g) data) g
  else g.

(** Every entry of the array of results is truthy. *)
Definition results_truthy (rs : list (option value)) : Prop :=
  ∀ i v, rs !! i = Some (Some v) → truthy v = true.

(** The bytes captured so far: [blob.size] in [onstop]. *)
Definition captured (w : World) : nat := foldr Nat.add 0 (audioChunks w).

(** A later analyze call than call number [k] has been sent. *)
Definition stale (k : nat) (w : World) : Prop := S k < length (analyzeCalls w).

(** A text is free of markup when it has no [<] and no [>], and each
    [&] in it starts one of the entities the page writes. *)
Fixpoint starts_with (p s : string) : bool :=
  match p, s with
  | EmptyString, _ => true
  | String a p', String b s' => if decide (a = b) then starts_with p' s' else false
  | String _ _, EmptyString => false
  end.

Definition entity_follows (s : string) : bool :=
  starts_with "amp;" s || starts_with "lt;" s
  || starts_with "gt;" s || starts_with "nbsp;" s.

Fixpoint markup_free (s : string) : bool :=
  match s with
  | EmptyString => true
  | String c rest =>
      if decide (c = "<"%char) then false
      else if decide (c = ">"%char) then false
      else if decide (c = "&"%char) then entity_follows rest && markup_free rest
      else markup_free rest
  end.

(** Reading the entities back: after an [&] that starts an entity, [skip]
    counts the characters of the entity still to pass over. *)
Fixpoint unescape_from (skip : nat) (s : string) : string :=
  match s with
  | EmptyString => EmptyString
  | String c rest =>
      match skip with
      | S k => unescape_from k rest
      | O =>
          if decide (c = "&"%char) then
            if starts_with "amp;" rest then String "&" (unescape_from 4 rest)
            else if starts_with "lt;" rest then String "<" (unescape_from 3 rest)
            else if starts_with "gt;" rest then String ">" (unescape_from 3 rest)
            else if starts_with "nbsp;" rest
                 then String "194" (String "160" (unescape_from 5 rest))
            else String c (unescape_from 0 rest)
          else String c (unescape_from 0 rest)
      end
  end.

Definition unescape (s : string) : string := unescape_from 0 s.

(** The three badges. *)
Definition badge_unknown : string := "<span class=" +:+ q "badge" +:+ ">—</span>".
Definition badge_yes : string := "<span class=" +:+ q "badge yes" +:+ ">Y</span>".
Definition badge_no : string := "<span class=" +:+ q "badge no" +:+ ">N</span>".

(** What a conditional of the form [v ? ... escapeHtml(v) ... : ''] can
    show of [v]: nothing when [v] is falsy, else its escaped text. *)
Definition escaped (v : value) : option string :=
  if truthy v then Some (escapeHtml v) else None.

(** What a rubric row shows of a criterion [o]: the verdict [met]
    normalises, and the note as far as [escapeHtml] lets it through. *)
Definition criterion_seen (o : value) : completion (value * option string) :=
  m ← met o;
  n ← note o;
  Ok (m, escaped n).

(** What the relevance row shows of [t.relevance_to_role]. *)
Definition relevance_seen (r : value) : option (value * option string) :=
  if truthy r then Some (get_opt r "met", escaped (get_opt r "note")) else None.

(** The members of a turn that hold the free text named by the claim:
    the turn text, the question type, the actionable feedback, and the
    criteria, whose notes are free text. *)
Definition free_text_members : list string :=
  ["text"; "question_type"; "actionable_feedback"; "relevance_to_role"] ++ rubric.*2.

(** An ok reply whose body parses to [data]. *)
Definition reply (data : value) : Settled :=
  Replied {| ok := true; statusText := "OK"; body := EmptyString; json := Some data |}.

(** The user records an answer of [n] bytes, up to the click on stop. *)
Definition record (n : nat) : list Event :=
  [PlaybackSettled; ClickStartAnswer true; MicrophoneGranted; DataAvailable n;
   ClickStopAnswer].

(** One answer: the recording, the recorder's stop callback, and the
    reply [s] to call number [k]. *)
Definition answer (n k : nat) (s : Settled) : list Event :=
  record n ++ [RecorderStopped; AnalyzeSettled k s].

(** A capture stopped before any audio arrived. *)
Definition silence : list Event :=
  [PlaybackSettled; ClickStartAnswer true; MicrophoneGranted; ClickStopAnswer; RecorderStopped].

(** The session of three questions with one retry on the second. *)
Definition three_with_retry (k n : nat) (r1 r2 r2' r3 : value) : list Event :=
  [ClickStartGuided]
  ++ answer n k (reply r1) ++ [ClickNextQuestion]
  ++ answer n (k + 1) (reply r2) ++ [ClickTryAgain]
  ++ answer n (k + 2) (reply r2') ++ [ClickNextQuestion]
  ++ answer n (k + 3) (reply r3) ++ [ClickNextQuestion].

(** How often the character [c] occurs in a text. *)
Fixpoint count_char (c : ascii) (s : string) : nat :=
  match s with
  | EmptyString => 0
  | String c' rest => (if decide (c' = c) then 1 else 0) + count_char c rest
  end.

(** A text made of white space only (the empty text included). *)
Definition blank (s : string) : bool := forallb fst (Text.pieces s).

(** The recorder hands over chunks of these sizes. *)
Definition chunks (sizes : list nat) : list Event := DataAvailable <$> sizes.

(** The status line after [setStatus('Error: ' + message, 'error')]. *)
Definition error_status (message : string) : Status :=
  {| status_text := "Error: " +:+ message; status_kind := "error" |}.

(** [typeof v === 'string'] *)
Definition is_string (v : value) : bool :=
  match v with
  | VStr _ => true
  | _ => false
  end.

(** A member the panels walk with [forEach] or [map] once it is truthy
    and has a positive [length]: walking it goes through when it is an
    array whose elements are all [ok], or when it has no [length] to speak
    of; a text with characters in it has a [length] and no [forEach]. *)
Definition walkable (ok : value → bool) (v : value) : bool :=
  match v with
  | VArr items => forallb ok items
  | VStr (String _ _) => false
  | _ => true
  end.

(** A turn [renderTurnScore] can draw: not [null] or [undefined], and,
    when it has a pace, a rating that is falsy or a text. *)
Definition turn_ok (t : value) : bool :=
  negb (nullish t)
  && (nullish (get_opt t "pace_wpm")
      || negb (truthy (get_opt t "pace_rating"))
      || is_string (get_opt t "pace_rating")).

Definition present (v : value) : bool := negb (nullish v).

(** A result whose feedback can be drawn. *)
Definition well_shaped (data : value) : bool :=
  walkable present (get_opt data "segments")
  && walkable turn_ok (get_opt (get_opt data "scores") "turns")
  && walkable present (get_opt data "rewrites").

(** The markup of a scored turn as its parts are meant to reach the
    page: the tags and labels the script writes, the verdict badges, the
    counts, and the free text (turn text, criterion notes, question type,
    actionable feedback), each put in through [escapeHtml]. *)

(** A free text [v] in a conditional part: nothing when [v] is falsy,
    else [pre] and the escaped text. *)
Definition shown_after (pre : string) (v : value) : string :=
  if truthy v then pre +:+ escapeHtml v else EmptyString.

(** The verdict of a criterion [o]: its [met] when that is a boolean. *)
Definition verdict (o : value) : value :=
  let m := get_opt o "met" in
  if is_boolean m then m else VNull.

Definition rubric_div (content : string) : string :=
  "<div class=" +:+ q "rubric-item" +:+ ">" +:+ content +:+ "</div>".

Definition criterion_row (t : value) (row : string * string) : string :=
  let o := get_opt t row.2 in
  rubric_div (badge (verdict o) +:+ " " +:+ row.1 +:+ shown_after ": " (get_opt o "note")).

Definition relevance_row (t : value) : string :=
  let r := get_opt t "relevance_to_role" in
  let m := get_opt r "met" in
  let n := get_opt r "note" in
  if truthy r && (negb (nullish m) || truthy n)
  then rubric_div ("Relevance to role: " +:+ badge m +:+ shown_after " " n)
  else EmptyString.

Definition feedback_row (t : value) : string :=
  let feedback := get_opt t "actionable_feedback" in
  if truthy feedback
  then "<div class=" +:+ q "rubric-item" +:+ " style=" +:+ q "margin-top:0.5rem"
       +:+ "><strong>Feedback:</strong> " +:+ escapeHtml feedback +:+ "</div>"
  else EmptyString.

Definition escaped_turn_markup (t : value) (pace : string) : string :=
  "<div class=" +:+ q "turn" +:+ ">"
  +:+ "<div class=" +:+ q "turn-text" +:+ ">" +:+ escapeHtml (get_opt t "text") +:+ "</div>"
  +:+ "<div class=" +:+ q "rubric" +:+ ">"
  +:+ foldr String.append EmptyString (criterion_row t <$> rubric)
  +:+ rubric_div ("Filler count: " +:+ to_string (coalesce (get_opt t "filler_count") (VStr "—")))
  +:+ rubric_div ("Long pauses: " +:+ to_string (coalesce (get_opt t "long_pauses") (VStr "—")))
  +:+ rubric_div ("Trailing/ramble: " +:+ badge (get_opt t "trailing_sentences"))
  +:+ pace
  +:+ relevance_row t
  +:+ rubric_div ("Question type: "
                  +:+ escapeHtml (or_else (get_opt t "question_type") (VStr "—")))
  +:+ feedback_row t
  +:+ "</div></div>".

(** Values in which no object, at any depth, has a member with one of
    the given names.  A member named [toString] stands in for the
    conversion of its object to text, one named [length] for the length
    the panels test. *)
Fixpoint lacks (names : list string) (v : value) : bool :=
  match v with
  | VArr items => forallb (lacks names) items
  | VObj members =>
      forallb (fun kv : string * value =>
                 let '(k, x) := kv in
                 negb (bool_decide (k ∈ names)) && lacks names x) members
  | _ => true
  end.

(** A settled questions request whose reply, where it has a truthy
    [questions] member, has an array there. *)
Definition array_or_falsy (v : value) : bool :=
  match v with
  | VArr _ => true
  | _ => negb (truthy v)
  end.

Definition questions_listed (s : Settled) : bool :=
  match s with
  | Rejected _ => true
  | Replied r =>
      match json r with
      | Some data => array_or_falsy (get_opt data "questions")
      | None => true
      end
  end.

(** The message an entry of a [detail] list stands for: the entry itself
    when it is a text, its [msg] when it is an object that has a text
    there. *)
Definition entry_msg (x : value) : option string :=
  match x with
  | VStr m => Some m
  | VObj fields =>
      match own fields "msg" with
      | Some (VStr m) => Some m
      | _ => None
      end
  | _ => None
  end.

(** What [uploadAndAnalyze] falls back to when reading the [detail]
    throws: the body, or the status text for an empty body. *)
Definition body_or_status (r : Response) : string :=
  if body r is EmptyString then statusText r else body r.

(** What the setup banner says when the health request fails. *)
Definition unreachable_text : string :=
  "Could not reach server. Start with: cd backend && uvicorn main:app --port 8000".

(** The click that moves to the next question, and the one that starts
    the interview. *)
Definition is_next (e : Event) : bool :=
  match e with ClickNextQuestion => true | _ => false end.

Definition is_start (e : Event) : bool :=
  match e with ClickStartGuided => true | _ => false end.

(** Closes a goal [k ∉ free_text_members] for a literal [k]. *)
Ltac not_among :=
  let Hin := fresh "Hin" in
  intros Hin; unfold free_text_members in Hin; simpl in Hin;
  repeat (apply elem_of_cons in Hin as [Hin|Hin]; [discriminate|]);
  by apply elem_of_nil in Hin.

End Notions.

(* ================================================================== *)
(** ** Sample data *)
(* ================================================================== *)

Module Samples.
Import JS Html Guided Notions.

(** The page before anything was rendered. *)
Definition blank : Page :=
  {| status := clear; questionList := EmptyString; btnStartGuided_disabled := true;
     guidedSetup_shown := true; guidedActive_shown := false; sessionSummary_shown := false;
     questionProgress := EmptyString; currentQuestion := EmptyString;
     btnStartAnswer_disabled := true; btnStopAnswer_disabled := true;
     guidedFeedback := EmptyString; btnTryAgain_shown := false;
     btnNextQuestion_shown := false; sessionSummary := EmptyString;
     addQuestionInput := EmptyString |}.

Definition fresh : World :=
  {| gs := initial_state; page := blank; mediaRecorder := NoRecorder; audioChunks := [];
     analyzeCalls := []; questionsCalls := [] |}.

(** A scored answer with one turn and the given overall summary. *)
Definition scored (summary : string) : value :=
  VObj [ ("segments", VArr [VObj [("text", VStr "We disagreed on scope")]]);
         ("scores",
          VObj [ ("overall_summary", VStr summary);
                 ("turns",
                  VArr [VObj [ ("text", VStr "We disagreed on scope");
                               ("specific_example",
                                VObj [("met", VBool true); ("note", VStr "names the project")]);
                               ("filler_count", VNum (Num Gt "2")) ]]) ]);
         ("rewrites", VArr []) ].

Definition two_questions : list value :=
  [VStr "Tell me about a conflict"; VStr "Estimate daily rideshare trips"].

Definition three_questions : list value :=
  two_questions ++ [VStr "Why this role?"].

(** The questions arrive, and the interview is started. *)
Definition load (qs : list value) : list Event :=
  [ClickLoadQuestions EmptyString; QuestionsSettled 0 (reply (VObj [("questions", VArr qs)]))].

(** The world a run from the fresh page ends in. *)
Definition after (es : list Event) : World := default fresh (run es fresh).

(** The reply of a server that failed: status 500 with a JSON body
    that carries a [detail] and no [questions]. *)
Definition server_error : Settled :=
  Replied {| ok := false; statusText := "Internal Server Error";
             body := "{" +:+ q "detail" +:+ ":" +:+ q "LLM unavailable" +:+ "}";
             json := Some (VObj [("detail", VStr "LLM unavailable")]) |}.

(** A request that never reached the server. *)
Definition unreachable : Settled := Rejected "Failed to fetch".

(** A scored turn as the scorer may send it: one criterion without a
    verdict, no [trailing_sentences], and a relevance entry that has a
    note and no [met]. *)
Definition partial_turn : value :=
  VObj [ ("text", VStr "We cut latency by a third");
         ("specific_example", VObj [("note", VStr "no verdict given")]);
         ("quantified_impact", VObj [("met", VBool false); ("note", VStr "no baseline")]);
         ("relevance_to_role", VObj [("note", VStr "Matches the role")]) ].

(** Two turns with the same numbers and verdicts whose free text is
    held differently: a text that is a string or a number, a missing note
    or an empty one, a question type that is [null] or not there. *)
Definition turn_as_text : value :=
  VObj [ ("text", VStr "42");
         ("tradeoffs", VObj [("met", VBool true); ("note", VStr EmptyString)]);
         ("filler_count", VNum (Num Gt "3"));
         ("question_type", VNull) ].

Definition turn_as_number : value :=
  VObj [ ("text", VNum (Num Gt "42"));
         ("tradeoffs", VObj [("met", VBool true)]);
         ("filler_count", VNum (Num Gt "3")) ].

(** Worlds some runs end in, evaluated. *)
Definition loaded_two : World := Eval vm_compute in after (load two_questions).

Definition loaded_three : World := Eval vm_compute in after (load three_questions).

(** The first answer has been recorded and sent; its call is pending. *)
Definition analyzing_first : World :=
  Eval vm_compute in
    after (load two_questions ++ [ClickStartGuided] ++ record 5 ++ [RecorderStopped]).

(** The first answer has its feedback. *)
Definition feedback_first : World :=
  Eval vm_compute in
    after (load two_questions ++ [ClickStartGuided]
           ++ answer 5 0 (reply (scored "First attempt"))).

(** The recorder was stopped at once; its stop callback is still to come. *)
Definition stopped_at_once : World :=
  Eval vm_compute in
    after (load two_questions
           ++ [ClickStartGuided; PlaybackSettled; ClickStartAnswer true; MicrophoneGranted;
               ClickStopAnswer]).

(** A first recording is sent for analysis (call 0) and its reply is
    slow.  The user goes back to the setup panel and starts again,
    answers, gets the reply to call 1, and asks to try again. *)
Definition slow_first_call : list Event :=
  load [VStr "Why this role?"] ++ [ClickStartGuided]
  ++ record 4 ++ [RecorderStopped]
  ++ [ClickMode true; ClickStartGuided]
  ++ answer 6 1 (reply (scored "Second recording"))
  ++ [ClickTryAgain].

Definition retrying_with_call_pending : World := Eval vm_compute in after slow_first_call.

(** The first question was answered twice, and "next" was clicked. *)
Definition finished_two : World :=
  Eval vm_compute in
    after (load two_questions ++ [ClickStartGuided]
           ++ answer 5 0 (reply (scored "First attempt"))
           ++ [ClickTryAgain] ++ answer 7 1 (reply (scored "Second attempt"))
           ++ [ClickNextQuestion]).

End Samples.

(* ================================================================== *)
(** ** Properties *)
(* ================================================================== *)

Module Props.
Import JS Html Guided Notions.

(** *** The array of results *)

Lemma write_slot_lookup (a : list (option value)) i v :
  write_slot a i v !! i = Some (Some v).
Proof.
  unfold write_slot. case_decide as Hi.
  - by rewrite list_lookup_insert_eq.
  - rewrite lookup_app_r by lia. rewrite lookup_app_r; rewrite length_replicate; [|lia].
    by replace (i - length a - (i - length a)) with 0 by lia.
Qed.

Lemma write_slot_lookup_ne (a : list (option value)) i j v :
  i ≠ j → mjoin (write_slot a i v !! j) = mjoin (a !! j).
Proof.
  intros Hne. unfold write_slot. case_decide as Hi.
  - by rewrite list_lookup_insert_ne.
  - destruct (decide (j < length a)) as [Hj|Hj].
    + by rewrite lookup_app_l.
    + rewrite (lookup_ge_None_2 a j) by lia. rewrite lookup_app_r by lia.
      destruct (decide (j - length a < i - length a)) as [Hlt|Hge].
      * rewrite lookup_app_l by (rewrite length_replicate; lia).
        by rewrite lookup_replicate_2.
      * rewrite lookup_app_r by (rewrite length_replicate; lia).
        rewrite length_replicate.
        replace (j - length a - (i - length a)) with (S (j - i - 1)) by lia.
        done.
Qed.

Lemma read_write_slot (a : list (option value)) i v :
  read_slot (write_slot a i v) i = v.
Proof. unfold read_slot. by rewrite write_slot_lookup. Qed.

Lemma read_write_slot_ne (a : list (option value)) i j v :
  i ≠ j → read_slot (write_slot a i v) j = read_slot a j.
Proof. intros Hne. unfold read_slot. by rewrite write_slot_lookup_ne. Qed.

Lemma write_slot_in_range (a : list (option value)) i v :
  i < length a → length (write_slot a i v) = length a.
Proof. intros Hi. unfold write_slot. rewrite decide_True by done. apply length_insert. Qed.

(** *** What the handlers do to [guidedState] *)

Lemma showGuidedFeedback_gs w : gs (showGuidedFeedback w).1 = gs w.
Proof. unfold showGuidedFeedback. by destruct (feedback_html _). Qed.

Lemma showGuidedFeedback_calls w :
  analyzeCalls (showGuidedFeedback w).1 = analyzeCalls w.
Proof. unfold showGuidedFeedback. by destruct (feedback_html _). Qed.

Lemma showCurrentQuestion_gs w : gs (showCurrentQuestion w) = gs w.
Proof. unfold showCurrentQuestion. by case_decide. Qed.

Lemma onGuidedAnalyzeResult_gs data w :
  gs (onGuidedAnalyzeResult data w).1 = store data (with_mode Feedback (gs w)).
Proof.
  unfold onGuidedAnalyzeResult, store. rewrite showGuidedFeedback_gs.
  by destruct (truthy data).
Qed.

Lemma store_with_mode data m g :
  with_mode m (store data (with_mode m g)) = store data (with_mode m g).
Proof. unfold store. by destruct (truthy data). Qed.

Lemma analysis_completes_gs s w :
  gs (analysis_completes s w) = store (delivered s) (with_mode Feedback (gs w)).
Proof.
  unfold analysis_completes, uploadAndAnalyze_settled, delivered.
  destruct (analyze_data s) as [data|m]; [|by rewrite onGuidedAnalyzeResult_gs].
  pose proof (onGuidedAnalyzeResult_gs data w) as Hgs.
  destruct (onGuidedAnalyzeResult data w) as [w1 [[]|m]]; simpl in *; [done|].
  rewrite onGuidedAnalyzeResult_gs. simpl. rewrite Hgs.
  apply (store_with_mode data Feedback).
Qed.

(** *** C1 *)

(** C1 (as amended).  When the analyze call of a session in the
    Analyzing state settles, successfully or not, the controller moves to
    Feedback and stays on the same question.  What the call delivers is
    written at the current index only when it is truthy; on the failure
    path the call delivers [null] and the stored results are left as they
    were. *)
Theorem analysis_completion_reaches_feedback (w : World) (s : Settled) :
  mode (gs w) = Analyzing →
  let w' := analysis_completes s w in
  let i := currentQuestionIndex (gs w) in
  mode (gs w') = Feedback
  ∧ currentQuestionIndex (gs w') = i
  ∧ questions (gs w') = questions (gs w)
  ∧ (truthy (delivered s) = true →
       sessionResults (gs w') = write_slot (sessionResults (gs w)) i (delivered s)
       ∧ read_slot (sessionResults (gs w')) i = delivered s)
  ∧ (truthy (delivered s) = false → sessionResults (gs w') = sessionResults (gs w))
  ∧ (analyze_data s = Ok (delivered s) ∨ delivered s = VNull).
Proof.
  intros _ w' i. subst w' i. rewrite analysis_completes_gs. unfold store.
  assert (analyze_data s = Ok (delivered s) ∨ delivered s = VNull) as Hd.
  { unfold delivered. destruct (analyze_data s); auto. }
  destruct (truthy (delivered s)) eqn:Ht; simpl.
  - split_and!; try done. intros _. split; [done|]. apply read_write_slot.
  - split_and!; done.
Qed.

(** Witness for C1: the first answer of a two-question session is being
    analysed and the reply arrives. *)
Lemma analysis_completion_reaches_feedback_witness :
  let w := Samples.analyzing_first in
  let s := reply (Samples.scored "Clear story") in
  mode (gs w) = Analyzing
  ∧ mode (gs (analysis_completes s w)) = Feedback
  ∧ read_slot (sessionResults (gs (analysis_completes s w))) 0 = Samples.scored "Clear story".
Proof.
  intros w s.
  pose proof (analysis_completion_reaches_feedback w s eq_refl) as (Hm & _ & _ & Hs & _).
  split; [reflexivity|]. split; [exact Hm|]. exact (proj2 (Hs eq_refl)).
Defined.

(** Counterexample to C1 as stated: a retried answer whose analyze
    request fails.  The call delivers [null], and the slot of the current
    question still holds the first attempt's result: the outcome of the
    completed call was not stored. *)
Lemma failed_analysis_is_not_stored :
  ∃ w,
    run (Samples.load Samples.two_questions ++ [ClickStartGuided]
         ++ answer 5 0 (reply (Samples.scored "First attempt"))
         ++ [ClickTryAgain] ++ record 7 ++ [RecorderStopped]) Samples.fresh = Some w
    ∧ mode (gs w) = Analyzing
    ∧ delivered Samples.unreachable = VNull
    ∧ mode (gs (analysis_completes Samples.unreachable w)) = Feedback
    ∧ read_slot (sessionResults (gs (analysis_completes Samples.unreachable w)))
                (currentQuestionIndex (gs w)) = Samples.scored "First attempt"
    ∧ read_slot (sessionResults (gs (analysis_completes Samples.unreachable w)))
                (currentQuestionIndex (gs w)) ≠ delivered Samples.unreachable.
Proof.
  eexists. split; [vm_compute; reflexivity|].
  split_and!; try (vm_compute; reflexivity). vm_compute. discriminate.
Qed.

(** *** C9 *)

(** C9.  Starting with no questions does nothing, so a session in Setup
    stays in Setup; starting with at least one question makes the session
    Active on question 0 with no stored results. *)
Theorem start_requires_questions (w : World) :
  (questions (gs w) = [] →
     startGuidedInterview w = w
     ∧ (mode (gs w) = Setup → mode (gs (startGuidedInterview w)) = Setup))
  ∧ (questions (gs w) ≠ [] →
       let w' := startGuidedInterview w in
       mode (gs w') = Active
       ∧ currentQuestionIndex (gs w') = 0
       ∧ sessionResults (gs w') = []
       ∧ questions (gs w') = questions (gs w)).
Proof.
  unfold startGuidedInterview. split.
  - intros ->. done.
  - intros Hne. destruct (questions (gs w)) as [|q0 qs] eqn:Hq; [done|].
    cbv zeta. rewrite showCurrentQuestion_gs. simpl. by rewrite Hq.
Qed.

Lemma start_requires_questions_witness :
  (startGuidedInterview Samples.fresh = Samples.fresh
   ∧ mode (gs (startGuidedInterview Samples.fresh)) = Setup)
  ∧ (let w := Samples.loaded_two in
     questions (gs w) ≠ []
     ∧ mode (gs (startGuidedInterview w)) = Active
     ∧ currentQuestionIndex (gs (startGuidedInterview w)) = 0
     ∧ sessionResults (gs (startGuidedInterview w)) = []).
Proof.
  split.
  - destruct (proj1 (start_requires_questions Samples.fresh) eq_refl) as [H1 H2].
    split; [exact H1 | exact (H2 eq_refl)].
  - intros w. assert (questions (gs w) ≠ []) as Hne by discriminate.
    destruct (proj2 (start_requires_questions w) Hne) as (H1 & H2 & H3 & _).
    split; [exact Hne|]. split; [exact H1|]. split; [exact H2 | exact H3].
Defined.

(** *** C3 *)

Lemma onNextQuestion_gs w :
  gs (onNextQuestion w) =
    let g := with_index (currentQuestionIndex (gs w) + 1) (gs w) in
    if decide (length (questions g) ≤ currentQuestionIndex g)
    then with_mode Complete g else with_mode Active g.
Proof.
  unfold onNextQuestion. simpl. case_decide; [done|].
  by rewrite showCurrentQuestion_gs.
Qed.

(** C3 (as amended).  From Feedback, "next" adds exactly one to the
    current index.  When the new index is at or past the number of
    questions the session becomes Complete; otherwise it becomes Active
    and the page shows the question at the new index. *)
Theorem next_advances_by_one (w : World) :
  mode (gs w) = Feedback →
  let w' := onNextQuestion w in
  let i' := currentQuestionIndex (gs w) + 1 in
  currentQuestionIndex (gs w') = i'
  ∧ questions (gs w') = questions (gs w)
  ∧ sessionResults (gs w') = sessionResults (gs w)
  ∧ (length (questions (gs w)) ≤ i' → mode (gs w') = Complete)
  ∧ (i' < length (questions (gs w)) →
       mode (gs w') = Active
       ∧ ∃ question, questions (gs w) !! i' = Some question
                     ∧ currentQuestion (page w') = text_content question).
Proof.
  intros _ w' i'. subst w' i'. rewrite onNextQuestion_gs. simpl.
  case_decide as Hend; simpl; split_and!; try done; try lia.
  intros Hlt. split; [done|].
  destruct (lookup_lt_is_Some_2 (questions (gs w)) _ Hlt) as [question Hq].
  exists question. split; [done|].
  unfold onNextQuestion. simpl. rewrite decide_False by done.
  unfold showCurrentQuestion. simpl. unfold read_item. rewrite Hq. done.
Qed.

Lemma next_advances_by_one_witness :
  let w := Samples.feedback_first in
  mode (gs w) = Feedback
  ∧ currentQuestionIndex (gs (onNextQuestion w)) = 1
  ∧ mode (gs (onNextQuestion w)) = Active
  ∧ currentQuestion (page (onNextQuestion w)) = "Estimate daily rideshare trips".
Proof.
  intros w.
  pose proof (next_advances_by_one w eq_refl) as (Hi & _ & _ & _ & Hactive).
  split; [reflexivity|]. split; [exact Hi|].
  destruct (Hactive ltac:(simpl; lia)) as (Hm & question & Hq & Hshown).
  split; [exact Hm|]. rewrite Hshown.
  simpl in Hq. injection Hq as <-. reflexivity.
Defined.

(** Counterexample to C3 as stated: with a single question, "next"
    from question 0 gives the new index 1, which does not exceed the
    length 1, and yet the session is Complete, not Active. *)
Lemma next_completes_at_length :
  ∃ w,
    run (Samples.load [VStr "Why this role?"] ++ [ClickStartGuided]
         ++ answer 5 0 (reply (Samples.scored "Clear story")))
        Samples.fresh = Some w
    ∧ mode (gs w) = Feedback
    ∧ currentQuestionIndex (gs (onNextQuestion w)) = 1
    ∧ length (questions (gs w)) = 1
    ∧ ¬ (length (questions (gs w)) < currentQuestionIndex (gs (onNextQuestion w)))
    ∧ mode (gs (onNextQuestion w)) = Complete
    ∧ mode (gs (onNextQuestion w)) ≠ Active.
Proof.
  eexists. split; [vm_compute; reflexivity|].
  split_and!; try (vm_compute; reflexivity); vm_compute; [lia | discriminate].
Qed.

(** *** Runs *)

Lemma run_app es1 es2 w : run (es1 ++ es2) w = run es1 w ≫= run es2.
Proof.
  revert w. induction es1 as [|e es1 IH]; intros w; simpl; [done|].
  destruct (handle e w) as [w'|]; simpl; [apply IH | done].
Qed.

Lemma run_app_Some es1 es2 w w1 :
  run es1 w = Some w1 → run (es1 ++ es2) w = run es2 w1.
Proof. intros H. by rewrite run_app, H. Qed.

Lemma onTryAgain_gs w : gs (onTryAgain w) = with_mode Active (gs w).
Proof. unfold onTryAgain. by rewrite showCurrentQuestion_gs. Qed.

Lemma onTryAgain_calls w : analyzeCalls (onTryAgain w) = analyzeCalls w.
Proof. unfold onTryAgain, showCurrentQuestion. by case_decide. Qed.

Lemma onNextQuestion_calls w : analyzeCalls (onNextQuestion w) = analyzeCalls w.
Proof.
  unfold onNextQuestion, showSessionSummary, showCurrentQuestion.
  repeat case_decide; done.
Qed.

Lemma startGuidedInterview_gs w :
  questions (gs w) ≠ [] →
  gs (startGuidedInterview w) = with_results [] (with_index 0 (with_mode Active (gs w))).
Proof.
  intros Hne. unfold startGuidedInterview.
  destruct (questions (gs w)); [done|]. by rewrite showCurrentQuestion_gs.
Qed.

Lemma startGuidedInterview_calls w :
  analyzeCalls (startGuidedInterview w) = analyzeCalls w.
Proof.
  unfold startGuidedInterview, showCurrentQuestion.
  destruct (questions (gs w)); [done|]. by case_decide.
Qed.

Lemma analysis_completes_calls s w :
  analyzeCalls (analysis_completes s w) = analyzeCalls w.
Proof.
  unfold analysis_completes, uploadAndAnalyze_settled, onGuidedAnalyzeResult.
  destruct (analyze_data s) as [data|m]; simpl.
  - destruct (showGuidedFeedback _) as [w1 [[]|m]] eqn:E; simpl.
    + change w1 with (w1, @Ok () ()).1. rewrite <- E, showGuidedFeedback_calls.
      by destruct (truthy data).
    + rewrite showGuidedFeedback_calls. simpl.
      change w1 with (w1, @Throw () m).1. rewrite <- E, showGuidedFeedback_calls.
      by destruct (truthy data).
  - by rewrite showGuidedFeedback_calls.
Qed.

(** Recording [n > 0] bytes and stopping sends one analyze call for the
    current question and leaves the session Analyzing. *)
Lemma record_sends_call w n :
  0 < n →
  ∃ w1,
    run (record n ++ [RecorderStopped]) w = Some w1
    ∧ gs w1 = with_mode Analyzing (gs w)
    ∧ analyzeCalls w1 =
        analyzeCalls w
        ++ [{| blob_size := n;
               questionText := read_item (questions (gs w)) (currentQuestionIndex (gs w));
               call_jobDescription := jobDescription (gs w) |}].
Proof.
  intros Hn. eexists. split; [|split].
  - simpl. unfold ondataavailable. rewrite decide_True by done. simpl.
    unfold onstop. simpl. rewrite decide_True by lia. simpl. reflexivity.
  - simpl. reflexivity.
  - simpl. by rewrite Nat.add_0_r.
Qed.

(** A whole answer: the recording, then the reply to the call it sent. *)
Lemma answer_completes w n s :
  0 < n →
  ∃ w',
    run (answer n (length (analyzeCalls w)) s) w = Some w'
    ∧ gs w' = store (delivered s) (with_mode Feedback (gs w))
    ∧ length (analyzeCalls w') = S (length (analyzeCalls w)).
Proof.
  intros Hn. destruct (record_sends_call w n Hn) as (w1 & Hrun & Hgs & Hcalls).
  exists (analysis_completes s w1). split; [|split].
  - change (answer n (length (analyzeCalls w)) s)
      with ((record n ++ [RecorderStopped])
            ++ [AnalyzeSettled (length (analyzeCalls w)) s]).
    rewrite (run_app_Some _ _ _ _ Hrun). simpl.
    rewrite Hcalls, lookup_app_r by lia. rewrite Nat.sub_diag. simpl. reflexivity.
  - rewrite analysis_completes_gs, Hgs. by destruct (gs w).
  - rewrite analysis_completes_calls, Hcalls, length_app. simpl. lia.
Qed.

Lemma delivered_reply data : delivered (reply data) = data.
Proof. reflexivity. Qed.

(** *** C2 *)

(** "Try again" from Feedback, then a whole new answer. *)
Lemma retry_writes_the_slot (w : World) (n : nat) (s : Settled) :
  0 < n →
  truthy (delivered s) = true →
  ∃ w',
    run (ClickTryAgain :: answer n (length (analyzeCalls w)) s) w = Some w'
    ∧ mode (gs w') = Feedback
    ∧ currentQuestionIndex (gs w') = currentQuestionIndex (gs w)
    ∧ sessionResults (gs w') =
        write_slot (sessionResults (gs w)) (currentQuestionIndex (gs w)) (delivered s).
Proof.
  intros Hn Ht.
  destruct (answer_completes (onTryAgain w) n s Hn) as (w' & Hrun & Hgs & _).
  rewrite onTryAgain_calls in Hrun. exists w'. split; [exact Hrun|].
  rewrite Hgs, onTryAgain_gs. unfold store. rewrite Ht. by destruct (gs w).
Qed.

Lemma run_click e es w : run ([e] ++ es) w = handle e w ≫= run es.
Proof. reflexivity. Qed.

Lemma three_with_retry_results (w : World) (n : nat) (q1 q2 q3 r1 r2 r2' r3 : value) :
  questions (gs w) = [q1; q2; q3] →
  0 < n →
  truthy r1 = true → truthy r2 = true → truthy r2' = true → truthy r3 = true →
  ∃ w',
    run (three_with_retry (length (analyzeCalls w)) n r1 r2 r2' r3) w = Some w'
    ∧ mode (gs w') = Complete
    ∧ sessionResults (gs w') = [Some r1; Some r2'; Some r3].
Proof.
  intros Hq Hn H1 H2 H2' H3. unfold three_with_retry.
  (* start *)
  pose proof (startGuidedInterview_gs w) as G0. rewrite Hq in G0.
  specialize (G0 ltac:(discriminate)).
  destruct (gs w) as [m qs i jd rs] eqn:Hg. simpl in Hq. subst qs. cbn in G0.
  pose proof (startGuidedInterview_calls w) as K0. apply (f_equal length) in K0.
  rewrite run_click. cbn [handle mbind option_bind].
  generalize dependent (startGuidedInterview w). intros w0 G0 K0.
  (* first answer, next *)
  destruct (answer_completes w0 n (reply r1) Hn) as (w1 & R1 & G1 & K1).
  rewrite K0 in R1, K1. rewrite (run_app_Some _ _ _ _ R1). clear R1.
  rewrite delivered_reply, G0 in G1. unfold store in G1. rewrite H1 in G1. cbn in G1.
  rewrite run_click. cbn [handle mbind option_bind].
  pose proof (onNextQuestion_gs w1) as G1'. rewrite G1 in G1'. cbn in G1'.
  pose proof (onNextQuestion_calls w1) as K1'. apply (f_equal length) in K1'.
  generalize dependent (onNextQuestion w1). intros w1' G1' K1'.
  (* second answer, try again *)
  destruct (answer_completes w1' n (reply r2) Hn) as (w2 & R2 & G2 & K2).
  rewrite K1', K1, <- Nat.add_1_r in R2. rewrite (run_app_Some _ _ _ _ R2). clear R2.
  rewrite delivered_reply, G1' in G2. unfold store in G2. rewrite H2 in G2. cbn in G2.
  rewrite run_click. cbn [handle mbind option_bind].
  pose proof (onTryAgain_gs w2) as G2'. rewrite G2 in G2'. cbn in G2'.
  pose proof (onTryAgain_calls w2) as K2'. apply (f_equal length) in K2'.
  generalize dependent (onTryAgain w2). intros w2' G2' K2'.
  (* the retried answer, next *)
  destruct (answer_completes w2' n (reply r2') Hn) as (w3 & R3 & G3 & K3).
  replace (length (analyzeCalls w2')) with (length (analyzeCalls w) + 2) in R3 by lia.
  rewrite (run_app_Some _ _ _ _ R3). clear R3.
  rewrite delivered_reply, G2' in G3. unfold store in G3. rewrite H2' in G3. cbn in G3.
  rewrite run_click. cbn [handle mbind option_bind].
  pose proof (onNextQuestion_gs w3) as G3'. rewrite G3 in G3'. cbn in G3'.
  pose proof (onNextQuestion_calls w3) as K3'. apply (f_equal length) in K3'.
  generalize dependent (onNextQuestion w3). intros w3' G3' K3'.
  (* third answer, next *)
  destruct (answer_completes w3' n (reply r3) Hn) as (w4 & R4 & G4 & _).
  replace (length (analyzeCalls w3')) with (length (analyzeCalls w) + 3) in R4 by lia.
  rewrite (run_app_Some _ _ _ _ R4). clear R4.
  rewrite delivered_reply, G3' in G4. unfold store in G4. rewrite H3 in G4. cbn in G4.
  exists (onNextQuestion w4). split; [reflexivity|].
  rewrite onNextQuestion_gs, G4. split; reflexivity.
Qed.

(** C2 (as amended).  From Feedback, "try again" keeps the current
    index and makes the session Active.  When the retried answer's
    analysis delivers a truthy result, that result is written over the slot
    of the current index: the other slots keep their entries and the array
    does not grow.  So a session of three questions with one completed
    retry on the second, every analysis delivering a result, ends Complete
    with exactly three stored results, the second being the retry's. *)
Theorem retry_overwrites :
  (∀ w, mode (gs w) = Feedback →
     mode (gs (onTryAgain w)) = Active
     ∧ currentQuestionIndex (gs (onTryAgain w)) = currentQuestionIndex (gs w)
     ∧ questions (gs (onTryAgain w)) = questions (gs w)
     ∧ sessionResults (gs (onTryAgain w)) = sessionResults (gs w))
  ∧ (∀ w n s, mode (gs w) = Feedback → 0 < n → truthy (delivered s) = true →
       let i := currentQuestionIndex (gs w) in
       ∃ w',
         run (ClickTryAgain :: answer n (length (analyzeCalls w)) s) w = Some w'
         ∧ mode (gs w') = Feedback
         ∧ currentQuestionIndex (gs w') = i
         ∧ read_slot (sessionResults (gs w')) i = delivered s
         ∧ (∀ j, j ≠ i →
              read_slot (sessionResults (gs w')) j = read_slot (sessionResults (gs w)) j)
         ∧ (i < length (sessionResults (gs w)) →
              length (sessionResults (gs w')) = length (sessionResults (gs w))))
  ∧ (∀ w n q1 q2 q3 r1 r2 r2' r3,
       questions (gs w) = [q1; q2; q3] → 0 < n →
       truthy r1 = true → truthy r2 = true → truthy r2' = true → truthy r3 = true →
       ∃ w',
         run (three_with_retry (length (analyzeCalls w)) n r1 r2 r2' r3) w = Some w'
         ∧ mode (gs w') = Complete
         ∧ sessionResults (gs w') = [Some r1; Some r2'; Some r3]
         ∧ length (filter_Boolean (sessionResults (gs w'))) = 3).
Proof.
  split_and!.
  - intros w _. rewrite onTryAgain_gs. by destruct (gs w).
  - intros w n s _ Hn Ht i.
    destruct (retry_writes_the_slot w n s Hn Ht) as (w' & Hrun & Hm & Hi & Hr).
    exists w'. subst i. rewrite Hr. split_and!; try done.
    + apply read_write_slot.
    + intros j Hj. by apply read_write_slot_ne.
    + apply write_slot_in_range.
  - intros w n q1 q2 q3 r1 r2 r2' r3 Hq Hn H1 H2 H2' H3.
    destruct (three_with_retry_results w n q1 q2 q3 r1 r2 r2' r3 Hq Hn H1 H2 H2' H3)
      as (w' & Hrun & Hm & Hr).
    exists w'. split_and!; try done. rewrite Hr. simpl. by rewrite H1, H2', H3.
Qed.

Lemma retry_overwrites_witness :
  let w := Samples.feedback_first in
  mode (gs w) = Feedback
  ∧ (∃ w', run (ClickTryAgain :: answer 7 1 (reply (Samples.scored "Second attempt"))) w
           = Some w'
           ∧ read_slot (sessionResults (gs w')) 0 = Samples.scored "Second attempt"
           ∧ length (sessionResults (gs w')) = 1)
  ∧ (∃ w', run (three_with_retry 0 5 (Samples.scored "One") (Samples.scored "Two")
                  (Samples.scored "Two again") (Samples.scored "Three"))
               Samples.loaded_three = Some w'
           ∧ sessionResults (gs w')
             = [Some (Samples.scored "One"); Some (Samples.scored "Two again");
                Some (Samples.scored "Three")]).
Proof.
  intros w. destruct retry_overwrites as (_ & Hretry & Hsession).
  split; [reflexivity|]. split.
  - destruct (Hretry w 7 (reply (Samples.scored "Second attempt")) eq_refl
                ltac:(lia) eq_refl) as (w' & Hrun & _ & _ & Hread & _ & Hlen).
    exists w'. split; [exact Hrun|]. split; [exact Hread|].
    apply Hlen. simpl. lia.
  - destruct (Hsession Samples.loaded_three 5
                (VStr "Tell me about a conflict") (VStr "Estimate daily rideshare trips")
                (VStr "Why this role?")
                (Samples.scored "One") (Samples.scored "Two")
                (Samples.scored "Two again") (Samples.scored "Three")
                eq_refl ltac:(lia) eq_refl eq_refl eq_refl eq_refl)
      as (w' & Hrun & _ & Hres & _).
    exists w'. split; [exact Hrun | exact Hres].
Defined.

(** Counterexample to C2 as stated: the analysis of the retried answer
    fails.  It completes, delivering [null], and the slot still holds the
    result from before the retry. *)
Lemma failed_retry_keeps_old_result :
  ∃ w w',
    run (Samples.load Samples.two_questions ++ [ClickStartGuided]
         ++ answer 5 0 (reply (Samples.scored "First attempt"))) Samples.fresh = Some w
    ∧ mode (gs w) = Feedback
    ∧ run (ClickTryAgain :: answer 7 1 Samples.unreachable) w = Some w'
    ∧ mode (gs w') = Feedback
    ∧ delivered Samples.unreachable = VNull
    ∧ sessionResults (gs w') = [Some (Samples.scored "First attempt")]
    ∧ read_slot (sessionResults (gs w')) (currentQuestionIndex (gs w))
      ≠ delivered Samples.unreachable.
Proof.
  do 2 eexists. split; [vm_compute; reflexivity|].
  split; [reflexivity|]. split; [vm_compute; reflexivity|].
  split_and!; try (vm_compute; reflexivity). vm_compute. discriminate.
Qed.

(** *** C4 *)

(** Only truthy results are ever stored, so [filter(Boolean)] drops the
    holes and nothing else. *)
Lemma filter_Boolean_stored rs : results_truthy rs → filter_Boolean rs = omap id rs.
Proof.
  induction rs as [|[v|] rs IH]; intros Hrs; simpl; [done| |].
  - rewrite (Hrs 0 v eq_refl). f_equal. apply IH. intros i v' Hi. by apply (Hrs (S i)).
  - apply IH. intros i v' Hi. by apply (Hrs (S i)).
Qed.

Lemma write_slot_truthy rs i v :
  truthy v = true → results_truthy rs → results_truthy (write_slot rs i v).
Proof.
  intros Hv Hrs j v' Hj.
  destruct (decide (i = j)) as [->|Hne].
  - rewrite write_slot_lookup in Hj. by injection Hj as <-.
  - pose proof (write_slot_lookup_ne rs i j v Hne) as Hr. rewrite Hj in Hr. simpl in Hr.
    destruct (rs !! j) as [[v''|]|] eqn:Hold; simpl in Hr; try done.
    injection Hr as <-. by apply (Hrs j).
Qed.

Lemma store_results_truthy data g :
  results_truthy (sessionResults g) → results_truthy (sessionResults (store data g)).
Proof.
  unfold store. destruct (truthy data) eqn:Hd; [|done]. simpl.
  by apply write_slot_truthy.
Qed.

Lemma loadQuestions_settled_results jd s w w' :
  loadQuestions_settled jd s w = Some w' →
  sessionResults (gs w') = sessionResults (gs w).
Proof.
  unfold loadQuestions_settled.
  destruct (match s with Rejected m => _ | Replied r => _ end) as [member|m];
    [|by intros [= <-]].
  destruct (questions_or_empty member) as [qs|]; simpl; [|done].
  intros [= <-]. unfold renderQuestionList. simpl. by destruct qs.
Qed.

(** Every handler keeps the stored results truthy. *)
Lemma handle_results_truthy e w w' :
  handle e w = Some w' →
  results_truthy (sessionResults (gs w)) → results_truthy (sessionResults (gs w')).
Proof.
  destruct e; cbn [handle mbind option_bind]; try (intros [= <-]; done).
  - destruct (questionsCalls w !! k); simpl; [|done].
    intros H. by rewrite (loadQuestions_settled_results _ _ _ _ H).
  - intros [= <-]. unfold addCustomQuestion.
    destruct (Text.trim _); [done|]. unfold renderQuestionList. simpl.
    by destruct (questions (gs w) ++ _).
  - intros [= <-] Hrs. unfold startGuidedInterview.
    destruct (questions (gs w)) eqn:Hq; [done|].
    rewrite showCurrentQuestion_gs. simpl. by intros j r.
  - intros [= <-]. unfold onGuidedStartRecording. by destruct secure.
  - intros [= <-]. unfold ondataavailable. by case_decide.
  - intros [= <-]. unfold onGuidedStopRecording. by destruct (mediaRecorder w).
  - intros [= <-]. unfold onstop. case_decide; [done|]. by rewrite showGuidedFeedback_gs.
  - destruct (analyzeCalls w !! k); simpl; [|done]. intros [= <-] Hrs.
    fold (analysis_completes s w). rewrite analysis_completes_gs.
    by apply store_results_truthy.
  - intros [= <-]. rewrite onNextQuestion_gs. simpl. by case_decide.
Qed.

Lemma run_results_truthy es w w' :
  run es w = Some w' →
  results_truthy (sessionResults (gs w)) → results_truthy (sessionResults (gs w')).
Proof.
  revert w. induction es as [|e es IH]; intros w; simpl; [by intros [= <-]|].
  destruct (handle e w) as [w1|] eqn:He; simpl; [|done].
  intros Hrun Hrs. apply (IH w1 Hrun). by apply (handle_results_truthy e w).
Qed.

(** In any run from the fresh page, the summary counts and lists exactly
    the stored results, in the order of their indices. *)
Lemma summary_lists_stored_results es w' :
  run es Samples.fresh = Some w' →
  filter_Boolean (sessionResults (gs w')) = omap id (sessionResults (gs w')).
Proof.
  intros Hrun. apply filter_Boolean_stored. apply (run_results_truthy es _ _ Hrun).
  by intros i v.
Qed.

(** C4, the failing run.  The first of two questions gets no audio, the
    second is answered, and "next" ends the session.  The one stored
    result sits at index 1, and the summary prints it under the text of
    question 0. *)
Theorem summary_labels_by_position :
  ∃ w',
    run (Samples.load Samples.two_questions ++ [ClickStartGuided]
         ++ silence ++ [ClickNextQuestion]
         ++ answer 5 0 (reply (Samples.scored "Clear estimate"))
         ++ [ClickNextQuestion]) Samples.fresh = Some w'
    ∧ mode (gs w') = Complete
    ∧ questions (gs w') = [VStr "Tell me about a conflict"; VStr "Estimate daily rideshare trips"]
    ∧ sessionResults (gs w') = [None; Some (Samples.scored "Clear estimate")]
    ∧ sessionSummary (page w')
      = "<h2>Session complete</h2><p>You answered 1 question(s).</p>"
        +:+ "<div class=" +:+ q "turn" +:+ "><strong>Tell me about a conflict</strong><br>"
        +:+ "<span class=" +:+ q "muted" +:+ ">Clear estimate</span></div>".
Proof.
  eexists. split; [vm_compute; reflexivity|].
  split_and!; vm_compute; reflexivity.
Qed.

(** *** C5 *)

Lemma onstop_nothing_captured w :
  captured w = 0 →
  onstop w =
    showGuidedFeedback
      (on_gs (with_mode Feedback)
         (setStatus "No audio captured. Record for at least a few seconds." "error" w)).
Proof.
  unfold captured, onstop. intros ->. by rewrite decide_False by lia.
Qed.

(** C5 (as amended).  When the recorder stops with no bytes captured,
    the session goes straight to Feedback: no analyze request is sent and
    nothing is stored, the index and the stored results staying as they
    were.  The status line reports that no audio was captured, and the
    feedback panel is drawn from whatever the current index holds: the
    "No feedback available." text when the slot is empty, with "try
    again" and "next" both offered. *)
Theorem empty_capture_goes_to_feedback (w : World) :
  captured w = 0 →
  let w' := (onstop w).1 in
  let stored := read_slot (sessionResults (gs w)) (currentQuestionIndex (gs w)) in
  mode (gs w') = Feedback
  ∧ analyzeCalls w' = analyzeCalls w
  ∧ sessionResults (gs w') = sessionResults (gs w)
  ∧ currentQuestionIndex (gs w') = currentQuestionIndex (gs w)
  ∧ status_text (status (page w')) = "No audio captured. Record for at least a few seconds."
  ∧ (∀ html, feedback_html stored = Ok html →
       guidedFeedback (page w') = html
       ∧ btnTryAgain_shown (page w') = true
       ∧ btnNextQuestion_shown (page w') = true)
  ∧ (stored = VUndefined → guidedFeedback (page w') = no_feedback).
Proof.
  intros Hzero w' stored. subst w' stored. rewrite (onstop_nothing_captured w Hzero).
  assert (∀ html,
    feedback_html (read_slot (sessionResults (gs w)) (currentQuestionIndex (gs w))) = Ok html →
    guidedFeedback (page (showGuidedFeedback
      (on_gs (with_mode Feedback)
         (setStatus "No audio captured. Record for at least a few seconds." "error" w))).1)
    = html) as Hshown.
  { intros html Hhtml. unfold showGuidedFeedback. simpl. by rewrite Hhtml. }
  split_and!.
  - by rewrite showGuidedFeedback_gs.
  - by rewrite showGuidedFeedback_calls.
  - by rewrite showGuidedFeedback_gs.
  - by rewrite showGuidedFeedback_gs.
  - unfold showGuidedFeedback. by destruct (feedback_html _).
  - intros html Hhtml. split; [by apply Hshown|].
    unfold showGuidedFeedback. simpl. by rewrite Hhtml.
  - intros Hnone. apply Hshown. by rewrite Hnone.
Qed.

Lemma empty_capture_goes_to_feedback_witness :
  let w := Samples.stopped_at_once in
  captured w = 0
  ∧ mode (gs (onstop w).1) = Feedback
  ∧ analyzeCalls (onstop w).1 = []
  ∧ guidedFeedback (page (onstop w).1) = no_feedback.
Proof.
  intros w.
  pose proof (empty_capture_goes_to_feedback w eq_refl) as (Hm & Hc & _ & _ & _ & _ & Hnone).
  split; [reflexivity|]. split; [exact Hm|]. split; [exact Hc|]. exact (Hnone eq_refl).
Defined.

(** Counterexample to C5 as stated: the empty capture is a retry of a
    question that already has a result.  No analyze request is sent, but
    the feedback panel is not that of an empty result: it shows the
    feedback of the earlier attempt again. *)
Lemma empty_retry_shows_old_feedback :
  ∃ w old,
    run (Samples.load Samples.two_questions ++ [ClickStartGuided]
         ++ answer 5 0 (reply (Samples.scored "First attempt"))
         ++ [ClickTryAgain; PlaybackSettled; ClickStartAnswer true; MicrophoneGranted;
             ClickStopAnswer]) Samples.fresh = Some w
    ∧ captured w = 0
    ∧ mode (gs (onstop w).1) = Feedback
    ∧ analyzeCalls (onstop w).1 = analyzeCalls w
    ∧ feedback_html (Samples.scored "First attempt") = Ok old
    ∧ guidedFeedback (page (onstop w).1) = old
    ∧ guidedFeedback (page (onstop w).1) ≠ no_feedback.
Proof.
  do 2 eexists. split; [vm_compute; reflexivity|].
  split; [reflexivity|]. split; [reflexivity|]. split; [reflexivity|].
  split; [vm_compute; reflexivity|]. split; [vm_compute; reflexivity|].
  vm_compute. discriminate.
Qed.

(** *** C6 *)

(** When the request for questions is rejected, or its body is not
    JSON, or parses to [null], the error is put on the status line and
    [guidedState] is left alone. *)
Lemma loadQuestions_failure_keeps_questions jd s w :
  (match s with
   | Rejected _ => True
   | Replied r => json r = None ∨ json r = Some VNull
   end) →
  ∃ w' m,
    loadQuestions_settled jd s w = Some w'
    ∧ gs w' = gs w
    ∧ status (page w') = {| status_text := "Error: " +:+ m; status_kind := "error" |}.
Proof.
  unfold loadQuestions_settled. destruct s as [m|r]; simpl.
  - intros _. by eexists _, m.
  - unfold parse. intros [-> | ->]; simpl; by eexists _, _.
Qed.

(** C6, the failing run.  Two questions are loaded; a second load, for a
    job description, is answered by the server with an error reply.  The
    questions are replaced by the empty list and the status line is
    cleared: no error is shown. *)
Theorem error_reply_empties_questions :
  ∃ w w',
    run (Samples.load Samples.two_questions) Samples.fresh = Some w
    ∧ questions (gs w) = Samples.two_questions
    ∧ run [ClickLoadQuestions "Backend engineer, payments";
           QuestionsSettled 1 Samples.server_error] w = Some w'
    ∧ questionsCalls w' = [DefaultQuestions; AdaptQuestions "Backend engineer, payments"]
    ∧ questions (gs w') = []
    ∧ status (page w') = clear.
Proof.
  do 2 eexists. split; [vm_compute; reflexivity|].
  split; [reflexivity|]. split; [vm_compute; reflexivity|].
  split_and!; reflexivity.
Qed.

(** The sibling path: [uploadAndAnalyze] turns the same reply into an
    error carrying the server's [detail]. *)
Lemma analyze_reports_error_reply :
  analyze_data Samples.server_error = Throw "LLM unavailable".
Proof. reflexivity. Qed.

(** *** C7 *)

(** C7 (as amended).  The controller does not tell analyze calls apart.
    Whichever call settles, the one sent last or an earlier one, what it
    delivers is handled the same way: a truthy result is written at the
    index that is current at that moment and the session goes to
    Feedback. *)
Theorem completion_ignores_its_call (w : World) (k : nat) (s : Settled) :
  is_Some (analyzeCalls w !! k) →
  handle (AnalyzeSettled k s) w = Some (analysis_completes s w)
  ∧ mode (gs (analysis_completes s w)) = Feedback
  ∧ (truthy (delivered s) = true →
       read_slot (sessionResults (gs (analysis_completes s w))) (currentQuestionIndex (gs w))
       = delivered s).
Proof.
  intros [c Hc]. split_and!.
  - simpl. by rewrite Hc.
  - rewrite analysis_completes_gs. unfold store. by destruct (truthy _).
  - intros Ht. rewrite analysis_completes_gs. unfold store. rewrite Ht. simpl.
    apply read_write_slot.
Qed.

Lemma completion_ignores_its_call_witness :
  let w := Samples.retrying_with_call_pending in
  let s := reply (Samples.scored "First recording") in
  is_Some (analyzeCalls w !! 0)
  ∧ handle (AnalyzeSettled 0 s) w = Some (analysis_completes s w)
  ∧ read_slot (sessionResults (gs (analysis_completes s w))) 0
    = Samples.scored "First recording".
Proof.
  intros w s. assert (is_Some (analyzeCalls w !! 0)) as Hcall by (eexists; reflexivity).
  destruct (completion_ignores_its_call w 0 s Hcall) as (Hh & _ & Hr).
  split; [exact Hcall|]. split; [exact Hh | exact (Hr eq_refl)].
Defined.

(** Counterexample to C7 as stated: the reply to call 0 arrives after
    call 1 was sent and answered and after "try again".  It is stale, and
    it is stored all the same, over the result of call 1, and takes the
    session back to Feedback. *)
Lemma stale_completion_is_stored :
  ∃ w w',
    run Samples.slow_first_call Samples.fresh = Some w
    ∧ stale 0 w
    ∧ mode (gs w) = Active
    ∧ sessionResults (gs w) = [Some (Samples.scored "Second recording")]
    ∧ handle (AnalyzeSettled 0 (reply (Samples.scored "First recording"))) w = Some w'
    ∧ mode (gs w') = Feedback
    ∧ sessionResults (gs w') = [Some (Samples.scored "First recording")]
    ∧ sessionResults (gs w') ≠ sessionResults (gs w).
Proof.
  do 2 eexists. split; [vm_compute; reflexivity|].
  split; [unfold stale; vm_compute; lia|].
  split; [reflexivity|]. split; [reflexivity|].
  split; [vm_compute; reflexivity|].
  split; [reflexivity|]. split; [reflexivity|]. vm_compute. discriminate.
Qed.

(** *** C8 *)

Lemma get_truthy o k : truthy o = true → get o k = Ok (get_opt o k).
Proof. unfold get_opt. by destruct o. Qed.

(** The five rubric rows go through [met].  A criterion with a boolean
    [met] shows the badge of that boolean, N exactly for [false]; a
    criterion that is missing, or whose [met] is missing, [null] or not a
    boolean, shows the dash. *)
Lemma rubric_rows_keep_unknown (o : value) :
  ∃ m,
    met o = Ok m
    ∧ ((truthy o = true
        ∧ ∃ b, get o "met" = Ok (VBool b) ∧ m = VBool b
               ∧ badge m = if b then badge_yes else badge_no)
       ∨ ((truthy o = false ∨ ∃ v, get o "met" = Ok v ∧ is_boolean v = false)
          ∧ m = VNull ∧ badge m = badge_unknown)).
Proof.
  unfold met. destruct (truthy o) eqn:Ho.
  - rewrite (get_truthy o "met" Ho). simpl.
    destruct (get_opt o "met") as [| |b|n|str|items|members] eqn:Hm; simpl;
      eexists; (split; [reflexivity|]);
      try (right; split; [right; by eexists|done]).
    left. split; [done|]. exists b. by destruct b.
  - eexists. split; [reflexivity|]. right. split; [by left | done].
Qed.

(** C8, the failing input.  The relevance row and the trailing row hand
    the raw member to [badge], which only recognises [null]: a relevance
    entry with a note and no [met], and a turn with no
    [trailing_sentences], are both drawn with the N badge. *)
Theorem relevance_without_met_renders_N :
  get Samples.partial_turn "relevance_to_role" = Ok (VObj [("note", VStr "Matches the role")])
  ∧ get (VObj [("note", VStr "Matches the role")]) "met" = Ok VUndefined
  ∧ relevance_line Samples.partial_turn
    = Ok ("<div class=" +:+ q "rubric-item" +:+ ">Relevance to role: "
          +:+ badge_no +:+ " Matches the role</div>")
  ∧ get Samples.partial_turn "trailing_sentences" = Ok VUndefined
  ∧ renderTurnScore Samples.partial_turn
    = Ok ("<div class=" +:+ q "turn" +:+ "><div class=" +:+ q "turn-text" +:+ ">"
          +:+ "We cut latency by a third</div><div class=" +:+ q "rubric" +:+ ">"
          +:+ "<div class=" +:+ q "rubric-item" +:+ ">" +:+ badge_unknown
          +:+ " Direct answer (10s)</div>"
          +:+ "<div class=" +:+ q "rubric-item" +:+ ">" +:+ badge_unknown
          +:+ " Specific example: no verdict given</div>"
          +:+ "<div class=" +:+ q "rubric-item" +:+ ">" +:+ badge_no
          +:+ " Quantified impact: no baseline</div>"
          +:+ "<div class=" +:+ q "rubric-item" +:+ ">" +:+ badge_unknown
          +:+ " Tradeoffs</div>"
          +:+ "<div class=" +:+ q "rubric-item" +:+ ">" +:+ badge_unknown
          +:+ " Crisp takeaway</div>"
          +:+ "<div class=" +:+ q "rubric-item" +:+ ">Filler count: —</div>"
          +:+ "<div class=" +:+ q "rubric-item" +:+ ">Long pauses: —</div>"
          +:+ "<div class=" +:+ q "rubric-item" +:+ ">Trailing/ramble: " +:+ badge_no
          +:+ "</div>"
          +:+ "<div class=" +:+ q "rubric-item" +:+ ">Relevance to role: " +:+ badge_no
          +:+ " Matches the role</div>"
          +:+ "<div class=" +:+ q "rubric-item" +:+ ">Question type: —</div>"
          +:+ "</div></div>").
Proof. split_and!; vm_compute; reflexivity. Qed.

(** *** C10 *)

(** Induction on a text that may step over two bytes at once, the way
    [serialize_text] does. *)
Lemma string_ind2 (P : string → Prop) :
  P EmptyString →
  (∀ c rest, P rest → (∀ c' rest', rest = String c' rest' → P rest') → P (String c rest)) →
  ∀ s, P s.
Proof.
  intros Hnil Hstep s.
  assert (P s ∧ ∀ c' rest', s = String c' rest' → P rest') as [H _]; [|exact H].
  induction s as [|c rest [IH1 IH2]].
  - split; [done|]. intros ? ? [=].
  - split; [by apply Hstep|]. by intros ? ? [= _ <-].
Qed.

Lemma markup_free_entity x :
  markup_free ("&amp;" +:+ x) = markup_free x
  ∧ markup_free ("&lt;" +:+ x) = markup_free x
  ∧ markup_free ("&gt;" +:+ x) = markup_free x
  ∧ markup_free ("&nbsp;" +:+ x) = markup_free x.
Proof. split_and!; reflexivity. Qed.

Lemma unescape_entity x :
  unescape_from 0 ("&amp;" +:+ x) = String "&" (unescape_from 0 x)
  ∧ unescape_from 0 ("&lt;" +:+ x) = String "<" (unescape_from 0 x)
  ∧ unescape_from 0 ("&gt;" +:+ x) = String ">" (unescape_from 0 x)
  ∧ unescape_from 0 ("&nbsp;" +:+ x) = String "194" (String "160" (unescape_from 0 x)).
Proof. split_and!; reflexivity. Qed.

Lemma serialize_text_markup_free s : markup_free (serialize_text s) = true.
Proof.
  induction s as [|c rest IH1 IH2] using string_ind2; [done|].
  cbn [serialize_text]. repeat case_decide; subst.
  - by rewrite (proj1 (markup_free_entity _)).
  - by rewrite (proj1 (proj2 (markup_free_entity _))).
  - by rewrite (proj1 (proj2 (proj2 (markup_free_entity _)))).
  - destruct rest as [|c' rest']; [done|]. cbv iota.
    case_decide; subst.
    + rewrite (proj2 (proj2 (proj2 (markup_free_entity _)))). by apply (IH2 _ rest' eq_refl).
    + cbn [markup_free]. by rewrite !decide_False by done.
  - cbn [markup_free]. by rewrite !decide_False by done.
Qed.

Lemma unescape_serialize_text s : unescape (serialize_text s) = s.
Proof.
  unfold unescape.
  induction s as [|c rest IH1 IH2] using string_ind2; [done|].
  cbn [serialize_text]. repeat case_decide; subst.
  - by rewrite (proj1 (unescape_entity _)), IH1.
  - by rewrite (proj1 (proj2 (unescape_entity _))), IH1.
  - by rewrite (proj1 (proj2 (proj2 (unescape_entity _)))), IH1.
  - destruct rest as [|c' rest']; [done|]. cbv iota.
    case_decide; subst.
    + by rewrite (proj2 (proj2 (proj2 (unescape_entity _)))), (IH2 _ rest' eq_refl).
    + cbn [unescape_from]. rewrite decide_False by done. by rewrite IH1.
  - cbn [unescape_from]. rewrite decide_False by done. by rewrite IH1.
Qed.

Lemma get_nullish t k : nullish t = true → get t k = Throw type_error.
Proof. by destruct t. Qed.

Lemma get_not_nullish t k : nullish t = false → get t k = Ok (get_opt t k).
Proof. unfold get_opt. by destruct t. Qed.

Lemma renderTurnScore_nullish t : nullish t = true → renderTurnScore t = Throw type_error.
Proof. by destruct t. Qed.

Lemma met_total o : ∃ m, met o = Ok m.
Proof.
  unfold met. destruct (truthy o) eqn:Ho; [|by eexists].
  rewrite (get_truthy o _ Ho). by eexists.
Qed.

Lemma note_total o : ∃ n, note o = Ok n.
Proof.
  unfold note. destruct (truthy o) eqn:Ho; [|by eexists].
  rewrite (get_truthy o _ Ho). by eexists.
Qed.

Lemma escaped_shown (pre : string) v1 v2 :
  escaped v1 = escaped v2 →
  (if truthy v1 then pre +:+ escapeHtml v1 else EmptyString)
  = (if truthy v2 then pre +:+ escapeHtml v2 else EmptyString).
Proof.
  unfold escaped. destruct (truthy v1), (truthy v2); try done. by intros [= ->].
Qed.

Lemma escapeHtml_or_empty v : escapeHtml (or_else v (VStr EmptyString)) = escapeHtml v.
Proof. unfold or_else, escapeHtml. by destruct (truthy v) eqn:Hv; [rewrite Hv|]. Qed.

Lemma fold_rows items html :
  fold_left (λ acc it, acc +:+ rubric_item it) items html
  = fold_left (λ acc h, acc +:+ h) (rubric_item <$> items) html.
Proof. revert html. induction items as [|it items IH]; intros html; simpl; [done|apply IH]. Qed.

Lemma map_m_fmap {A B C} (f : A → completion B) (g : B → C) (l : list A) :
  fmap (M:=completion) (fmap (M:=list) g) (map_m f l)
  = map_m (λ x, fmap (M:=completion) g (f x)) l.
Proof.
  induction l as [|x l IH]; simpl; [done|].
  destruct (f x) as [y|m]; simpl; [|done].
  rewrite <- IH. by destruct (map_m f l).
Qed.

Lemma map_m_ext {A B} (f g : A → completion B) (l : list A) :
  (∀ x, x ∈ l → f x = g x) → map_m f l = map_m g l.
Proof.
  induction l as [|x l IH]; intros Hfg; simpl; [done|].
  rewrite (Hfg x) by apply list_elem_of_here.
  rewrite IH; [done|]. intros y Hy. apply Hfg. by apply list_elem_of_further.
Qed.

(** Two turns that differ only in their free text, and whose free text
    escapes to the same markup. *)
Section Alike.
Variables t1 t2 : value.
Hypothesis other_members : ∀ k, k ∉ free_text_members → get t1 k = get t2 k.
Hypothesis text_alike : (escapeHtml <$> get t1 "text") = (escapeHtml <$> get t2 "text").
Hypothesis type_alike :
  ((λ v, escapeHtml (or_else v (VStr "—"))) <$> get t1 "question_type")
  = ((λ v, escapeHtml (or_else v (VStr "—"))) <$> get t2 "question_type").
Hypothesis feedback_alike :
  (escaped <$> get t1 "actionable_feedback") = (escaped <$> get t2 "actionable_feedback").
Hypothesis rows_alike :
  ∀ row, row ∈ rubric →
    (get t1 row.2 ≫= criterion_seen) = (get t2 row.2 ≫= criterion_seen).
Hypothesis relevance_alike :
  (relevance_seen <$> get t1 "relevance_to_role")
  = (relevance_seen <$> get t2 "relevance_to_role").

Lemma nullish_alike : nullish t1 = nullish t2.
Proof.
  destruct (nullish t1) eqn:N1, (nullish t2) eqn:N2; try done.
  - by rewrite (get_nullish t1 _ N1), (get_not_nullish t2 _ N2) in text_alike.
  - by rewrite (get_not_nullish t1 _ N1), (get_nullish t2 _ N2) in text_alike.
Qed.

Lemma pace_line_alike : pace_line t1 = pace_line t2.
Proof.
  unfold pace_line.
  rewrite (other_members "pace_wpm"), (other_members "pace_rating"),
    (other_members "pace_feedback"); [done|..]; not_among.
Qed.

Section Objects.
Hypothesis N1 : nullish t1 = false.
Hypothesis N2 : nullish t2 = false.

Lemma item_seen_alike row :
  row ∈ rubric → (rubric_item <$> item t1 row) = (rubric_item <$> item t2 row).
Proof.
  intros Hrow. pose proof (rows_alike row Hrow) as Hseen. revert Hseen.
  unfold item, criterion_seen.
  rewrite (get_not_nullish t1 _ N1), (get_not_nullish t2 _ N2). simpl.
  destruct (met_total (get_opt t1 row.2)) as [m1 ->].
  destruct (met_total (get_opt t2 row.2)) as [m2 ->].
  destruct (note_total (get_opt t1 row.2)) as [n1 ->].
  destruct (note_total (get_opt t2 row.2)) as [n2 ->]. simpl.
  intros [= -> Hn]. unfold rubric_item. by rewrite (escaped_shown ": " n1 n2 Hn).
Qed.

Lemma relevance_line_alike : relevance_line t1 = relevance_line t2.
Proof.
  pose proof relevance_alike as Hseen. revert Hseen.
  unfold relevance_line, relevance_seen.
  rewrite (get_not_nullish t1 _ N1), (get_not_nullish t2 _ N2). simpl.
  destruct (truthy (get_opt t1 "relevance_to_role")) eqn:T1,
           (truthy (get_opt t2 "relevance_to_role")) eqn:T2; try done.
  rewrite !get_truthy by done. simpl. intros [= -> Hn].
  assert (truthy (get_opt (get_opt t1 "relevance_to_role") "note")
          = truthy (get_opt (get_opt t2 "relevance_to_role") "note")) as Ht.
  { unfold escaped in Hn. by repeat destruct (truthy (get_opt (get_opt _ _) "note")). }
  rewrite (escaped_shown " " _ _ Hn). by rewrite Ht.
Qed.

Lemma objects_drawn_alike : renderTurnScore t1 = renderTurnScore t2.
Proof.
  pose proof pace_line_alike as Hpace.
  pose proof relevance_line_alike as Hrelevance.
  assert (fmap (M:=completion) (fmap (M:=list) rubric_item) (map_m (item t1) rubric)
          = fmap (M:=completion) (fmap (M:=list) rubric_item) (map_m (item t2) rubric))
    as Hitems.
  { rewrite !map_m_fmap. apply map_m_ext. apply item_seen_alike. }
  pose proof (other_members "filler_count" ltac:(not_among)) as Hfiller.
  pose proof (other_members "long_pauses" ltac:(not_among)) as Hpauses.
  pose proof (other_members "trailing_sentences" ltac:(not_among)) as Htrailing.
  pose proof text_alike as Htext. pose proof type_alike as Htype.
  pose proof feedback_alike as Hfb.
  rewrite (get_not_nullish t1 _ N1), (get_not_nullish t2 _ N2) in Htext.
  rewrite (get_not_nullish t1 _ N1), (get_not_nullish t2 _ N2) in Htype.
  rewrite (get_not_nullish t1 _ N1), (get_not_nullish t2 _ N2) in Hfb.
  injection Htext as Htext. injection Htype as Htype. injection Hfb as Hfb.
  unfold renderTurnScore.
  rewrite Hpace, Hrelevance, Hfiller, Hpauses, Htrailing.
  rewrite !(get_not_nullish t1 _ N1), !(get_not_nullish t2 _ N2).
  destruct (map_m (item t1) rubric) as [items1|m1],
           (map_m (item t2) rubric) as [items2|m2];
    simpl in Hitems; try done; [|by injection Hitems as ->].
  injection Hitems as Hitems. cbn [mbind completion_bind].
  destruct (pace_line t2); [|done]. destruct (relevance_line t2); [|done].
  cbn [mbind completion_bind].
  rewrite !escapeHtml_or_empty, !fold_rows, Hitems, Htext, Htype.
  unfold escaped in Hfb.
  destruct (truthy (get_opt t1 "actionable_feedback")),
           (truthy (get_opt t2 "actionable_feedback")); try done.
  injection Hfb as ->. done.
Qed.
End Objects.

Lemma free_text_only_through_escapeHtml : renderTurnScore t1 = renderTurnScore t2.
Proof.
  pose proof nullish_alike as Hn.
  destruct (nullish t1) eqn:N1.
  - by rewrite !renderTurnScore_nullish.
  - by apply objects_drawn_alike.
Qed.
End Alike.

Lemma escapeHtml_falsy v : truthy v = false → escapeHtml v = EmptyString.
Proof. unfold escapeHtml. by intros ->. Qed.

Lemma escapeHtml_markup_free v : markup_free (escapeHtml v) = true.
Proof. unfold escapeHtml. destruct (truthy v); [apply serialize_text_markup_free | done]. Qed.

Lemma escapeHtml_keeps_text v : truthy v = true → unescape (escapeHtml v) = to_string v.
Proof. unfold escapeHtml. intros ->. apply unescape_serialize_text. Qed.

(** The escaped markup, piece by piece. *)
Lemma append_assoc (a b c : string) : (a +:+ b) +:+ c = a +:+ (b +:+ c).
Proof.
  induction a as [|x a IH]; [done|].
  change (String x ((a +:+ b) +:+ c) = String x (a +:+ (b +:+ c))). by f_equal.
Qed.

Lemma append_empty (a : string) : a +:+ EmptyString = a.
Proof.
  induction a as [|x a IH]; [done|].
  change (String x (a +:+ EmptyString) = String x a). by f_equal.
Qed.

Lemma met_verdict o : met o = Ok (verdict o).
Proof.
  unfold met, verdict. destruct (truthy o) eqn:Ho.
  - by rewrite (get_truthy o _ Ho).
  - by destruct o as [| |[]|n|[|c s]|l|ms]; try done; simpl in Ho; destruct (num_sign n).
Qed.

Lemma note_shown o :
  ∃ n, note o = Ok n
       ∧ (if truthy n then ": " +:+ escapeHtml n else EmptyString)
         = shown_after ": " (get_opt o "note").
Proof.
  unfold note, shown_after. destruct (truthy o) eqn:Ho.
  - rewrite (get_truthy o _ Ho). simpl.
    destruct (truthy (get_opt o "note")) eqn:Hn; eexists; (split; [reflexivity|]).
    + by rewrite Hn.
    + done.
  - exists (VStr EmptyString). split; [done|].
    by destruct o as [| |[]|n|[|c s]|l|ms]; try done; simpl in Ho; destruct (num_sign n).
Qed.

Lemma item_row t row :
  nullish t = false →
  ∃ it, item t row = Ok it ∧ rubric_item it = criterion_row t row.
Proof.
  intros Hn. unfold item. rewrite (get_not_nullish t _ Hn). cbn [mbind completion_bind].
  rewrite met_verdict. cbn [mbind completion_bind].
  destruct (note_shown (get_opt t row.2)) as (n & -> & Hshown).
  cbn [mbind completion_bind]. eexists. split; [reflexivity|].
  unfold rubric_item, criterion_row, rubric_div. rewrite Hshown.
  by rewrite ?append_assoc.
Qed.

Lemma relevance_line_row t : nullish t = false → relevance_line t = Ok (relevance_row t).
Proof.
  intros Hn. unfold relevance_line, relevance_row, shown_after, rubric_div.
  rewrite (get_not_nullish t _ Hn). cbn [mbind completion_bind].
  destruct (truthy (get_opt t "relevance_to_role")) eqn:Hr; [|done].
  rewrite !(get_truthy _ _ Hr). cbn [mbind completion_bind andb].
  destruct (negb _ || _); [|done]. by rewrite ?append_assoc.
Qed.

Lemma renderTurnScore_escapes t :
  renderTurnScore t
  = if nullish t then Throw type_error else escaped_turn_markup t <$> pace_line t.
Proof.
  destruct (nullish t) eqn:Hn; [by apply renderTurnScore_nullish|].
  unfold renderTurnScore, rubric. cbn [map_m].
  repeat match goal with
  | |- context [item t ?row] =>
      let it := fresh "it" in let Hrow := fresh "Hrow" in
      destruct (item_row t row Hn) as (it & -> & Hrow); cbn [mbind completion_bind]
  end.
  rewrite !(get_not_nullish t _ Hn). cbn [mbind completion_bind].
  rewrite (relevance_line_row t Hn).
  destruct (pace_line t) as [pace|m]; [|done].
  cbn [mbind completion_bind fmap completion_fmap fold_left]. f_equal.
  unfold escaped_turn_markup, rubric, feedback_row. cbn [fmap list_fmap foldr].
  rewrite escapeHtml_or_empty.
  repeat match goal with H : rubric_item _ = _ |- _ => rewrite H; clear H end.
  generalize (criterion_row t ("Direct answer (10s)", "direct_answer_10s")).
  generalize (criterion_row t ("Specific example", "specific_example")).
  generalize (criterion_row t ("Quantified impact", "quantified_impact")).
  generalize (criterion_row t ("Tradeoffs", "tradeoffs")).
  generalize (criterion_row t ("Crisp takeaway", "crisp_takeaway")).
  generalize (relevance_row t).
  generalize (escapeHtml (get_opt t "text")).
  generalize (escapeHtml (or_else (get_opt t "question_type") (VStr "—"))).
  generalize (to_string (coalesce (get_opt t "filler_count") (VStr "—"))).
  generalize (to_string (coalesce (get_opt t "long_pauses") (VStr "—"))).
  generalize (badge (get_opt t "trailing_sentences")).
  intros b p f qt tx rel r5 r4 r3 r2 r1.
  unfold rubric_div.
  destruct (truthy (get_opt t "actionable_feedback"));
    generalize (escapeHtml (get_opt t "actionable_feedback")); intros fb;
    rewrite ?append_assoc, ?append_empty; reflexivity.
Qed.



End Props.

(* ================================================================== *)
(** ** Further properties of the handlers *)
(* ================================================================== *)

Module More.
Import JS Html Guided Notions Props.

(** *** Adding a question *)

Lemma drop_spaces_blank ps : forallb fst ps = true → Text.drop_spaces ps = [].
Proof.
  induction ps as [|[[] b] ps IH]; simpl; [done| |done]. apply IH.
Qed.

Lemma drop_spaces_not_blank ps :
  forallb fst ps = false → forallb fst (Text.drop_spaces ps) = false.
Proof. induction ps as [|[[] b] ps IH]; simpl; [done| |done]. apply IH. Qed.

Lemma drop_spaces_Forall (P : bool * string → Prop) ps :
  Forall P ps → Forall P (Text.drop_spaces ps).
Proof.
  induction ps as [|[[] b] ps IH]; simpl; [done| |done].
  intros H. apply IH. by eapply Forall_cons_1.
Qed.

Lemma forallb_fst_rev (ps : list (bool * string)) :
  forallb fst (rev ps) = forallb fst ps.
Proof.
  induction ps as [|p ps IH]; simpl; [done|].
  rewrite forallb_app, IH. simpl. rewrite andb_true_r. apply andb_comm.
Qed.

Lemma pieces_cut (n : nat) s :
  String.length s ≤ n → Forall (λ p : bool * string, p.2 ≠ EmptyString) (Text.pieces s).
Proof.
  revert s. induction n as [|n IH]; intros s Hlen.
  - destruct s; [constructor | simpl in Hlen; lia].
  - destruct s as [|c1 rest]; [constructor|]. simpl in Hlen.
    cbn [Text.pieces]. destruct (Text.ascii_space c1).
    { constructor; [done | apply IH; lia]. }
    destruct rest as [|c2 rest2]; [by repeat constructor|]. simpl in Hlen.
    destruct (_ && _).
    { constructor; [done | apply IH; lia]. }
    destruct rest2 as [|c3 rest3]; [constructor; [done | apply IH; simpl; lia]|].
    simpl in Hlen. destruct (Text.space3 c1 c2 c3).
    + constructor; [done | apply IH; lia].
    + constructor; [done | apply IH; simpl; lia].
Qed.

Lemma unpieces_empty ps :
  Forall (λ p : bool * string, p.2 ≠ EmptyString) ps →
  Text.unpieces ps = EmptyString → ps = [].
Proof.
  destruct ps as [|[b str] ps]; [done|]. intros H. apply Forall_cons_1 in H as [H _].
  simpl in *. by destruct str.
Qed.

(** [trim] leaves nothing exactly of the texts that are white space. *)
Lemma trim_empty_iff_blank s : Text.trim s = EmptyString ↔ blank s = true.
Proof.
  unfold blank, Text.trim. split.
  - intros Ht. apply unpieces_empty in Ht.
    + destruct (forallb fst (Text.pieces s)) eqn:Hb; [done|].
      apply drop_spaces_not_blank in Hb. rewrite <- forallb_fst_rev in Hb.
      apply drop_spaces_not_blank in Hb. rewrite <- forallb_fst_rev in Hb.
      by rewrite Ht in Hb.
    + apply Forall_rev, drop_spaces_Forall, Forall_rev, drop_spaces_Forall.
      by apply (pieces_cut (String.length s)).
  - intros H. by rewrite (drop_spaces_blank _ H).
Qed.

Lemma renderQuestionList_gs w : gs (renderQuestionList w) = gs w.
Proof. unfold renderQuestionList. by destruct (questions (gs w)). Qed.

Lemma addCustomQuestion_gs w :
  gs (addCustomQuestion w)
  = if blank (addQuestionInput (page w)) then gs w
    else with_questions
           (questions (gs w) ++ [VStr (Text.trim (addQuestionInput (page w)))]) (gs w).
Proof.
  unfold addCustomQuestion.
  destruct (Text.trim (addQuestionInput (page w))) as [|c rest] eqn:Ht.
  - by rewrite (proj1 (trim_empty_iff_blank _) Ht).
  - destruct (blank (addQuestionInput (page w))) eqn:Hb.
    { apply trim_empty_iff_blank in Hb. congruence. }
    by rewrite renderQuestionList_gs.
Qed.

(** X1.  [addCustomQuestion] does nothing when the field holds only white
    space (or nothing); otherwise it appends the trimmed text as the last
    question, keeps the questions already there in their order, empties
    the field, lists the questions, enables the start button, and leaves
    the rest of the session alone. *)
Theorem addCustomQuestion_appends_trimmed (w : World) :
  let field := addQuestionInput (page w) in
  let w' := addCustomQuestion w in
  (blank field = true → w' = w)
  ∧ (blank field = false →
       questions (gs w') = questions (gs w) ++ [VStr (Text.trim field)]
       ∧ Text.trim field ≠ EmptyString
       ∧ addQuestionInput (page w') = EmptyString
       ∧ btnStartGuided_disabled (page w') = false
       ∧ questionList (page w') = question_list_html (questions (gs w'))
       ∧ mode (gs w') = mode (gs w)
       ∧ currentQuestionIndex (gs w') = currentQuestionIndex (gs w)
       ∧ sessionResults (gs w') = sessionResults (gs w)
       ∧ jobDescription (gs w') = jobDescription (gs w)).
Proof.
  intros field w'. subst field w'. unfold addCustomQuestion. split.
  - intros Hb. by rewrite (proj2 (trim_empty_iff_blank _) Hb).
  - intros Hb.
    destruct (Text.trim (addQuestionInput (page w))) as [|c rest] eqn:Ht.
    { apply trim_empty_iff_blank in Ht. congruence. }
    unfold renderQuestionList. simpl.
    destruct (questions (gs w) ++ [VStr (String c rest)]) as [|q0 qs] eqn:Hq.
    + by destruct (questions (gs w)).
    + simpl. by rewrite Hq.
Qed.

Lemma addCustomQuestion_appends_trimmed_witness :
  let typed text := on_page (set_addQuestionInput text) Samples.loaded_two in
  addCustomQuestion (typed "   ") = typed "   "
  ∧ questions (gs (addCustomQuestion (typed "  Why this role?  ")))
    = Samples.two_questions ++ [VStr "Why this role?"].
Proof.
  intros typed. split.
  - exact (proj1 (addCustomQuestion_appends_trimmed (typed "   ")) eq_refl).
  - exact (proj1 (proj2 (addCustomQuestion_appends_trimmed (typed "  Why this role?  "))
                    eq_refl)).
Defined.

(** *** Loading questions *)



Lemma loadQuestions_settled_cases (jd : string) (s : Settled) (w w' : World) :
  loadQuestions_settled jd s w = Some w' →
  mode (gs w') = mode (gs w)
  ∧ currentQuestionIndex (gs w') = currentQuestionIndex (gs w)
  ∧ sessionResults (gs w') = sessionResults (gs w)
  ∧ analyzeCalls w' = analyzeCalls w
  ∧ ((questions (gs w') = questions (gs w)
      ∧ jobDescription (gs w') = jobDescription (gs w)
      ∧ ∃ m, status (page w') = error_status m)
     ∨ (jobDescription (gs w') = jd
        ∧ status (page w') = clear
        ∧ ∃ r data member,
            s = Replied r ∧ json r = Some data
            ∧ get data "questions" = Ok member
            ∧ questions_or_empty member = Some (questions (gs w')))).
Proof.
  unfold loadQuestions_settled.
  destruct s as [m|r]; [intros [= <-]; split_and!; try done; left; eauto|].
  unfold parse. destruct (json r) as [data|] eqn:Hjson;
    [|intros [= <-]; split_and!; try done; left; eauto].
  cbn [mbind completion_bind].
  destruct (get data "questions") as [member|m] eqn:Hget;
    [|intros [= <-]; split_and!; try done; left; eauto].
  destruct (questions_or_empty member) as [qs|] eqn:Hqs; [|done].
  cbn [mbind option_bind]. intros [= <-].
  unfold renderQuestionList. cbn [gs on_gs questions with_questions with_jobDescription].
  destruct qs as [|q0 qs]; (split_and!; try done; right; split_and!; try done;
    exists r, data, member; by rewrite Hqs).
Qed.

Lemma loadQuestions_settled_total (jd : string) (s : Settled) (w : World) :
  questions_listed s = true → is_Some (loadQuestions_settled jd s w).
Proof.
  unfold loadQuestions_settled, questions_listed, parse.
  destruct s as [m|r]; [by eexists|].
  destruct (json r) as [data|]; [|by eexists].
  cbn [mbind completion_bind]. unfold get_opt.
  destruct (get data "questions") as [member|m]; [|by eexists].
  unfold questions_or_empty, array_or_falsy.
  destruct member as [| |[]|n|[|c rest]|items|members]; try done; try (by eexists).
  simpl. destruct (num_sign n); try done; by eexists.
Qed.



(** *** The list of questions *)

Lemma count_char_app c s1 s2 :
  count_char c (s1 +:+ s2) = count_char c s1 + count_char c s2.
Proof. induction s1 as [|c' s1 IH]; simpl; [done|]. rewrite IH. lia. Qed.

Lemma markup_free_counts s :
  markup_free s = true → count_char "<" s = 0 ∧ count_char ">" s = 0.
Proof.
  induction s as [|c s IH]; [done|]. cbn [markup_free count_char].
  repeat case_decide; subst; try done.
  intros [_ Hrest]%andb_true_iff. by apply IH.
Qed.

Lemma escapeHtml_counts v :
  count_char "<" (escapeHtml v) = 0 ∧ count_char ">" (escapeHtml v) = 0.
Proof. apply markup_free_counts, escapeHtml_markup_free. Qed.

Lemma count_char_join c (parts : list string) (k : nat) :
  Forall (λ p, count_char c p = k) parts →
  count_char c (join EmptyString parts) = k * length parts.
Proof.
  destruct parts as [|p parts]; [intros _; simpl; lia|]. simpl.
  intros [Hp Hparts]%Forall_cons_1.
  assert (∀ acc, count_char c (fold_left (λ acc q, acc +:+ EmptyString +:+ q) parts acc)
                 = count_char c acc + k * length parts) as Hfold.
  { induction parts as [|q parts IH]; intros acc; simpl; [lia|].
    apply Forall_cons_1 in Hparts as [Hq Hparts].
    rewrite (IH Hparts), !count_char_app, Hq. simpl. lia. }
  rewrite Hfold, Hp. lia.
Qed.


(** *** Recording *)

Lemma run_chunks sizes w :
  ∃ w1,
    run (chunks sizes) w = Some w1
    ∧ gs w1 = gs w ∧ page w1 = page w ∧ mediaRecorder w1 = mediaRecorder w
    ∧ analyzeCalls w1 = analyzeCalls w ∧ questionsCalls w1 = questionsCalls w
    ∧ audioChunks w1 = audioChunks w ++ filter (λ n, 0 < n) sizes.
Proof.
  revert w. induction sizes as [|n sizes IH]; intros w.
  - exists w. by rewrite app_nil_r.
  - destruct (IH (ondataavailable n w)) as (w1 & Hrun & Hgs & Hp & Hrec & Hc & Hq & Hchunks).
    exists w1. split; [exact Hrun|]. revert Hgs Hp Hrec Hc Hq Hchunks.
    unfold ondataavailable. rewrite filter_cons.
    case_decide; simpl; intros -> -> -> -> -> ->; split_and!; try done.
    by rewrite <- app_assoc.
Qed.

Lemma sum_filter_positive sizes :
  foldr Nat.add 0 (filter (λ n, 0 < n) sizes) = sum_list sizes.
Proof.
  induction sizes as [|n sizes IH]; [done|]. rewrite filter_cons. simpl.
  case_decide; simpl; lia.
Qed.

(** X5.  One recording, from the microphone being granted to the recorder's
    stop callback.  The chunks of size zero are dropped and the others
    kept in order; stopping makes the session Analyzing.  If any byte was
    captured, the stop callback sends exactly one analyze call, for the
    whole capture, the current question and the session's job description,
    and the status line says so; if none was, it sends no call and the
    session is in Feedback. *)
Theorem recording_sends_one_call (w : World) (sizes : list nat) :
  ∃ w1,
    run ([MicrophoneGranted] ++ chunks sizes ++ [ClickStopAnswer]) w = Some w1
    ∧ audioChunks w1 = filter (λ n, 0 < n) sizes
    ∧ captured w1 = sum_list sizes
    ∧ mode (gs w1) = Analyzing
    ∧ analyzeCalls w1 = analyzeCalls w
    ∧ (0 < sum_list sizes →
         analyzeCalls (onstop w1).1 =
           analyzeCalls w
           ++ [{| blob_size := sum_list sizes;
                  questionText := read_item (questions (gs w)) (currentQuestionIndex (gs w));
                  call_jobDescription := jobDescription (gs w) |}]
         ∧ mode (gs (onstop w1).1) = Analyzing
         ∧ status_text (status (page (onstop w1).1)) = "Transcribing and scoring...")
    ∧ (sum_list sizes = 0 →
         analyzeCalls (onstop w1).1 = analyzeCalls w
         ∧ mode (gs (onstop w1).1) = Feedback).
Proof.
  destruct (run_chunks sizes (microphone_granted w))
    as (w1 & Hrun & Hgs & Hp & Hrec & Hc & Hq & Hchunks).
  simpl in Hchunks.
  exists (onGuidedStopRecording w1).
  assert (onGuidedStopRecording w1
          = on_gs (with_mode Analyzing)
              (on_page (λ p, set_btnStopAnswer_disabled false
                               (set_btnStartAnswer_disabled true p))
                 (with_recorder Inactive (audioChunks w1) w1))) as Hstop.
  { unfold onGuidedStopRecording. by rewrite Hrec. }
  assert (captured (onGuidedStopRecording w1) = sum_list sizes) as Hcap.
  { rewrite Hstop. unfold captured. simpl. rewrite Hchunks. apply sum_filter_positive. }
  split_and!.
  - change (run ([MicrophoneGranted] ++ ?es) w) with (run es (microphone_granted w)).
    by rewrite run_app, Hrun.
  - by rewrite Hstop.
  - exact Hcap.
  - by rewrite Hstop.
  - by rewrite Hstop.
  - intros Hpos. unfold onstop. fold (captured (onGuidedStopRecording w1)).
    rewrite Hcap, decide_True by done. rewrite Hstop. simpl. rewrite Hc, Hgs. done.
  - intros Hzero.
    rewrite (onstop_nothing_captured _ (eq_trans Hcap Hzero)).
    rewrite showGuidedFeedback_calls, showGuidedFeedback_gs, Hstop. simpl. by rewrite Hc.
Qed.

(** *** Stopping *)

(** X6.  The stop button acts once.  With no recording in progress the click
    changes nothing, so a second click after a first does nothing more;
    with one in progress it stops the recorder, keeps the chunks, and makes
    the session Analyzing on the same question with the same results. *)
Theorem stop_acts_once (w : World) :
  onGuidedStopRecording (onGuidedStopRecording w) = onGuidedStopRecording w
  ∧ (mediaRecorder w ≠ Recording → onGuidedStopRecording w = w)
  ∧ (mediaRecorder w = Recording →
       mediaRecorder (onGuidedStopRecording w) = Inactive
       ∧ mode (gs (onGuidedStopRecording w)) = Analyzing
       ∧ audioChunks (onGuidedStopRecording w) = audioChunks w
       ∧ currentQuestionIndex (gs (onGuidedStopRecording w)) = currentQuestionIndex (gs w)
       ∧ sessionResults (gs (onGuidedStopRecording w)) = sessionResults (gs w)
       ∧ analyzeCalls (onGuidedStopRecording w) = analyzeCalls w).
Proof.
  unfold onGuidedStopRecording at 1 3 4 5 6 7 8 9 10.
  destruct (mediaRecorder w) eqn:Hrec; split_and!; try done.
  all: unfold onGuidedStopRecording; by rewrite ?Hrec.
Qed.

(** *** The status line after an analysis *)

Lemma showGuidedFeedback_status w :
  status (page (showGuidedFeedback w).1) = status (page w).
Proof. unfold showGuidedFeedback. by destruct (feedback_html _). Qed.

(** X7.  The "Transcribing and scoring..." line never outlives the call.
    A request that is rejected leaves the status line showing its
    message; a reply that is not ok, the message read from that reply; an
    ok reply whose body is not JSON, the parser's message.  When the data
    arrives and the feedback of the current slot is drawn, the line is
    cleared and the panel and both buttons are shown; when drawing fails,
    the line shows that error. *)
Theorem analysis_leaves_no_loading_status (w : World) (s : Settled) :
  let w' := analysis_completes s w in
  let drawn :=
    match feedback_html (read_slot (sessionResults (gs w')) (currentQuestionIndex (gs w')))
    with
    | Ok html =>
        status (page w') = clear
        ∧ guidedFeedback (page w') = html
        ∧ btnTryAgain_shown (page w') = true
        ∧ btnNextQuestion_shown (page w') = true
    | Throw m => status (page w') = error_status m
    end in
  (∀ m, s = Rejected m → status (page w') = error_status m)
  ∧ (∀ r, s = Replied r → ok r = false → status (page w') = error_status (reply_error r))
  ∧ (∀ r, s = Replied r → ok r = true → json r = None →
          status (page w') = error_status syntax_error)
  ∧ (∀ r data, s = Replied r → ok r = true → json r = Some data → drawn)
  ∧ (status (page w') = clear ∨ ∃ m, status (page w') = error_status m).
Proof.
  intros w' drawn. subst drawn.
  assert (∀ m, analyze_data s = Throw m → status (page w') = error_status m) as Hfail.
  { intros m Hm. subst w'. unfold analysis_completes, uploadAndAnalyze_settled.
    rewrite Hm. unfold onGuidedAnalyzeResult. by rewrite showGuidedFeedback_status. }
  assert (∀ data,
       analyze_data s = Ok data →
       match feedback_html (read_slot (sessionResults (gs w')) (currentQuestionIndex (gs w')))
       with
       | Ok html =>
           status (page w') = clear
           ∧ guidedFeedback (page w') = html
           ∧ btnTryAgain_shown (page w') = true
           ∧ btnNextQuestion_shown (page w') = true
       | Throw m => status (page w') = error_status m
       end) as Hdata.
  { intros data Hd.
    assert (gs w' = store data (with_mode Feedback (gs w))) as Hgs.
    { subst w'. rewrite analysis_completes_gs. unfold delivered. by rewrite Hd. }
    rewrite Hgs. subst w'. unfold analysis_completes, uploadAndAnalyze_settled.
    rewrite Hd.
    set (w1 := if truthy data
               then on_gs (λ g, with_results
                                  (write_slot (sessionResults g) (currentQuestionIndex g) data) g)
                      (on_gs (with_mode Feedback) w)
               else on_gs (with_mode Feedback) w).
    change (onGuidedAnalyzeResult data w) with (showGuidedFeedback w1).
    assert (gs w1 = store data (with_mode Feedback (gs w))) as Hgs1.
    { subst w1. unfold store. by destruct (truthy data). }
    assert (showGuidedFeedback w1
            = match feedback_html (read_slot (sessionResults (gs w1))
                                     (currentQuestionIndex (gs w1))) with
              | Ok html =>
                  (on_page (λ p, set_btnStartAnswer_disabled true
                                   (set_btnNextQuestion_shown true
                                      (set_btnTryAgain_shown true
                                         (set_guidedFeedback html p)))) w1, Ok ())
              | Throw m => (w1, Throw m)
              end) as -> by reflexivity.
    rewrite Hgs1.
    destruct (feedback_html _) as [html|m] eqn:Hhtml; [by split_and!|].
    unfold onGuidedAnalyzeResult. cbn [truthy]. rewrite showGuidedFeedback_status. done. }
  split_and!.
  - intros m ->. by apply Hfail.
  - intros r -> Hok. apply Hfail. simpl. by rewrite Hok.
  - intros r -> Hok Hjson. apply Hfail. simpl. rewrite Hok. unfold parse. by rewrite Hjson.
  - intros r data -> Hok Hjson. apply (Hdata data). simpl. rewrite Hok. unfold parse.
    by rewrite Hjson.
  - destruct (analyze_data s) as [data|m] eqn:Hd.
    + specialize (Hdata data eq_refl). destruct (feedback_html _); [left; tauto | right; eauto].
    + right. eauto.
Qed.

(** *** The message of a reply that is not ok *)

Lemma join_texts sep (msgs : list string) :
  array_join sep (VStr <$> msgs) = join sep msgs.
Proof.
  unfold array_join. f_equal. induction msgs as [|m msgs IH]; [done|].
  cbn [fmap list_fmap map to_string nullish]. f_equal. exact IH.
Qed.

Lemma entry_msg_read x m :
  entry_msg x = Some m → (v ← get x "msg"; Ok (coalesce v x)) = Ok (VStr m).
Proof.
  destruct x as [| |b|n|t|l|fields]; try done.
  - by intros [= ->].
  - cbn [entry_msg get]. destruct (own fields "msg") as [[| |b|n|t|l|fs]|]; try done.
    by intros [= ->].
Qed.

Lemma map_m_msgs (items : list value) (msgs : list string) :
  mapM entry_msg items = Some msgs →
  map_m (λ x, v ← get x "msg"; Ok (coalesce v x)) items = Ok (VStr <$> msgs).
Proof.
  revert msgs. induction items as [|x items IH]; intros msgs.
  - by intros [= <-].
  - cbn [mapM]. destruct (entry_msg x) as [m|] eqn:Hx; [|done].
    cbn [mbind option_bind]. destruct (mapM entry_msg items) as [ms|]; [|done].
    cbn [mbind option_bind mret option_ret]. intros [= <-].
    cbn [map_m]. rewrite (entry_msg_read x m Hx). cbn [mbind completion_bind].
    by rewrite (IH ms eq_refl).
Qed.

Lemma map_m_msgs_throw (items : list value) :
  existsb nullish items = true →
  map_m (λ x, v ← get x "msg"; Ok (coalesce v x)) items = Throw type_error.
Proof.
  induction items as [|x items IH]; [done|]. cbn [existsb map_m].
  destruct (nullish x) eqn:Hx.
  - by rewrite (get_nullish x _ Hx).
  - rewrite (get_not_nullish x _ Hx). cbn [mbind completion_bind orb].
    intros H. by rewrite (IH H).
Qed.

(** X8.  What [uploadAndAnalyze] reports for a reply that is not ok.  A body
    that is not JSON is reported as it is, or by the status text when it
    is empty.  A JSON object is reported by its [detail]: a text as it
    is; a list whose entries are texts, or objects that have a text [msg]
    among their members, as these messages joined by commas; a list with
    a [null] entry as the body is (reading that entry throws); and a
    missing or [null] detail by the status text. *)
Theorem reply_error_reads_detail (r : Response) :
  (json r = None → reply_error r = body_or_status r)
  ∧ (∀ members d,
       json r = Some (VObj members) → own members "detail" = Some (VStr d) →
       reply_error r = d)
  ∧ (∀ members items msgs,
       json r = Some (VObj members) →
       own members "detail" = Some (VArr items) →
       mapM entry_msg items = Some msgs →
       reply_error r = join ", " msgs)
  ∧ (∀ members items,
       json r = Some (VObj members) →
       own members "detail" = Some (VArr items) →
       existsb nullish items = true →
       reply_error r = body_or_status r)
  ∧ (∀ members,
       json r = Some (VObj members) →
       nullish (default VUndefined (own members "detail")) = true →
       reply_error r = statusText r).
Proof.
  unfold reply_error, parse, body_or_status. split_and!.
  - intros ->. simpl. unfold or_else. simpl. by destruct (body r).
  - intros members d -> Hd. simpl. by rewrite Hd.
  - intros members items msgs -> Hd Hmsgs. simpl. rewrite Hd. simpl.
    rewrite (map_m_msgs items msgs Hmsgs). simpl. apply join_texts.
  - intros members items -> Hd Hnull. simpl. rewrite Hd. simpl.
    rewrite (map_m_msgs_throw items Hnull). simpl. unfold or_else. simpl.
    by destruct (body r).
  - intros members -> Hd. simpl.
    destruct (default VUndefined (own members "detail")); done.
Qed.

Lemma reply_error_reads_detail_witness :
  let unparsed := {| ok := false; statusText := "Bad Gateway"; body := "upstream down";
                     json := None |} in
  let entry (m : string) :=
    VObj [("type", VStr "missing"); ("loc", VArr [VStr "body"; VStr "audio"]);
          ("msg", VStr m); ("input", VNull)] in
  let listed := {| ok := false; statusText := "Unprocessable Entity"; body := EmptyString;
                   json := Some (VObj [("detail",
                                        VArr [entry "Field required";
                                              VStr "value is not a file"])]) |} in
  reply_error unparsed = "upstream down"
  ∧ reply_error listed = "Field required, value is not a file".
Proof.
  intros unparsed entry listed. split.
  - exact (proj1 (reply_error_reads_detail unparsed) eq_refl).
  - exact (proj1 (proj2 (proj2 (reply_error_reads_detail listed))) _ _
             ["Field required"; "value is not a file"] eq_refl eq_refl eq_refl).
Defined.

(** *** Presenting a question *)

Lemma showCurrentQuestion_page w :
  mode (gs w) = Active →
  let g := gs w in
  btnStartAnswer_disabled (page (showCurrentQuestion w)) = true
  ∧ currentQuestion (page (showCurrentQuestion w))
    = text_content (read_item (questions g) (currentQuestionIndex g))
  ∧ questionProgress (page (showCurrentQuestion w))
    = "Question " +:+ pretty (currentQuestionIndex g + 1) +:+ " of "
      +:+ pretty (length (questions g)).
Proof. intros Hm. unfold showCurrentQuestion. by rewrite Hm. Qed.

Lemma showCurrentQuestion_disables w :
  mode (gs w) = Active → btnStartAnswer_disabled (page (showCurrentQuestion w)) = true.
Proof. intros Hm. unfold showCurrentQuestion. by rewrite Hm. Qed.

Lemma showGuidedFeedback_keeps_disabled w :
  btnStartAnswer_disabled (page w) = true →
  btnStartAnswer_disabled (page (showGuidedFeedback w).1) = true.
Proof. intros H. unfold showGuidedFeedback. by destruct (feedback_html _). Qed.

Lemma answer_button_stays_disabled (e : Event) (w w' : World) :
  e ≠ PlaybackSettled →
  handle e w = Some w' →
  btnStartAnswer_disabled (page w) = true →
  btnStartAnswer_disabled (page w') = true.
Proof.
  intros He. destruct e; try done; cbn [handle mbind option_bind].
  - by intros [= <-].
  - by intros [= <-].
  - destruct (questionsCalls w !! k); simpl; [|done].
    unfold loadQuestions_settled.
    destruct (match s with Rejected m => _ | Replied r => _ end) as [member|m];
      [|by intros [= <-]].
    destruct (questions_or_empty member) as [qs|]; simpl; [|done].
    intros [= <-]. unfold renderQuestionList. simpl. by destruct qs.
  - by intros [= <-].
  - intros [= <-]. unfold addCustomQuestion.
    destruct (Text.trim _); [done|]. unfold renderQuestionList. simpl.
    by destruct (questions (gs w) ++ _).
  - intros [= <-] Hb. unfold startGuidedInterview.
    destruct (questions (gs w)) eqn:Hq; [done|by apply showCurrentQuestion_disables].
  - intros [= <-]. unfold onGuidedStartRecording. by destruct secure.
  - by intros [= <-].
  - by intros [= <-].
  - intros [= <-]. unfold ondataavailable. by case_decide.
  - intros [= <-]. unfold onGuidedStopRecording. by destruct (mediaRecorder w).
  - intros [= <-] Hb. unfold onstop. case_decide; [done|].
    by apply showGuidedFeedback_keeps_disabled.
  - destruct (analyzeCalls w !! k); simpl; [|done]. intros [= <-] Hb.
    assert (∀ data w0, btnStartAnswer_disabled (page w0) = true →
              btnStartAnswer_disabled (page (onGuidedAnalyzeResult data w0).1) = true) as Hres.
    { intros data w0 H0. unfold onGuidedAnalyzeResult.
      apply showGuidedFeedback_keeps_disabled. by destruct (truthy data). }
    unfold uploadAndAnalyze_settled.
    destruct (analyze_data s) as [data|m]; [|by apply Hres].
    pose proof (Hres data w Hb) as Hd.
    destruct (onGuidedAnalyzeResult data w) as [w1 [[]|m]]; [done|by apply Hres].
  - intros [= <-] _. by apply showCurrentQuestion_disables.
  - intros [= <-] Hb. unfold onNextQuestion. case_decide; [done|].
    by apply showCurrentQuestion_disables.
Qed.
(** X9.  Each way of presenting a question (starting the interview, "try
    again", "next" before the end) shows the question of the current index
    with its place among the questions, and disables the answer button;
    the button is enabled again when the playback of the question settles,
    whether it played or failed.  Nothing else enables it: every other
    event leaves a disabled answer button disabled. *)
Theorem answer_waits_for_playback (w : World) (e : Event) :
  ((e = ClickStartGuided ∧ questions (gs w) ≠ [])
   ∨ e = ClickTryAgain
   ∨ (e = ClickNextQuestion ∧ currentQuestionIndex (gs w) + 1 < length (questions (gs w))) →
   ∃ w',
     handle e w = Some w'
     ∧ mode (gs w') = Active
     ∧ btnStartAnswer_disabled (page w') = true
     ∧ currentQuestion (page w')
       = text_content (read_item (questions (gs w')) (currentQuestionIndex (gs w')))
     ∧ questionProgress (page w')
       = "Question " +:+ pretty (currentQuestionIndex (gs w') + 1) +:+ " of "
         +:+ pretty (length (questions (gs w')))
     ∧ btnStartAnswer_disabled (page (playback_settled w')) = false
     ∧ gs (playback_settled w') = gs w')
  ∧ (∀ w',
       e ≠ PlaybackSettled →
       handle e w = Some w' →
       btnStartAnswer_disabled (page w) = true →
       btnStartAnswer_disabled (page w') = true).
Proof.
  split; [|intros w'; apply answer_button_stays_disabled].
  intros [[-> Hq] | [-> | [-> Hlt]]]; eexists; (split; [reflexivity|]).
  - unfold startGuidedInterview. destruct (questions (gs w)) as [|q0 qs] eqn:Hqs; [done|].
    rewrite showCurrentQuestion_gs.
    split; [done|]. split_and!; try done; by apply showCurrentQuestion_page.
  - unfold onTryAgain. rewrite showCurrentQuestion_gs.
    split; [done|]. split_and!; try done; by apply showCurrentQuestion_page.
  - unfold onNextQuestion. cbn [gs on_gs questions with_index currentQuestionIndex].
    rewrite decide_False by (destruct (gs w); simpl in *; lia).
    rewrite showCurrentQuestion_gs.
    split; [done|]. split_and!; try done; by apply showCurrentQuestion_page.
Qed.

Lemma answer_waits_for_playback_witness :
  ∃ w',
    handle ClickTryAgain Samples.feedback_first = Some w'
    ∧ btnStartAnswer_disabled (page w') = true
    ∧ currentQuestion (page w') = "Tell me about a conflict"
    ∧ questionProgress (page w') = "Question 1 of 2"
    ∧ btnStartAnswer_disabled (page (playback_settled w')) = false
    ∧ btnStartAnswer_disabled (page (microphone_granted w')) = true.
Proof.
  destruct (proj1 (answer_waits_for_playback Samples.feedback_first ClickTryAgain)
              (or_intror (or_introl eq_refl)))
    as (w' & Hh & _ & Hd & Hq & Hp & He & _).
  exists w'. split; [exact Hh|]. split; [exact Hd|].
  split; [injection Hh as <-; exact Hq|]. split; [injection Hh as <-; exact Hp|].
  split; [exact He|].
  exact (proj2 (answer_waits_for_playback w' MicrophoneGranted) _
           ltac:(discriminate) eq_refl Hd).
Defined.

(** *** The setup check *)

Lemma checkSetup_without_data s :
  (match s with
   | Rejected _ => True
   | Replied r => json r = None ∨ ∃ data, json r = Some data ∧ nullish data = true
   end) →
  checkSetup_settled s
  = {| banner_text := unreachable_text; banner_class := "setup-banner warn";
       banner_shown := true |}.
Proof.
  unfold checkSetup_settled, parse. destruct s as [m|r]; [done|].
  intros [-> | (data & -> & Hnull)]; [done|].
  by destruct data.
Qed.

Lemma checkSetup_with_data r data :
  json r = Some data → nullish data = false →
  ∃ text,
    checkSetup_settled (Replied r)
    = {| banner_text := text;
         banner_class := if truthy (get_opt data "ffmpeg") && truthy (get_opt data "llm_ready")
                         then "setup-banner ok" else "setup-banner warn";
         banner_shown := true |}
    ∧ (truthy (get_opt data "ffmpeg") && truthy (get_opt data "llm_ready") = true →
       text = "Ready: ffmpeg and "
              +:+ (if truthy (get_opt data "gemini_configured") then "Gemini" else "Ollama")
              +:+ " detected.").
Proof.
  intros Hjson Hnull. unfold checkSetup_settled, parse. rewrite Hjson.
  cbn [mbind completion_bind]. rewrite !(get_not_nullish data _ Hnull).
  cbn [mbind completion_bind].
  destruct (truthy (get_opt data "ffmpeg")), (truthy (get_opt data "llm_ready"));
    cbn [mbind completion_bind app andb];
    try destruct (truthy (get_opt data "gemini_configured"));
    cbn [mbind completion_bind app]; eexists; (split; [reflexivity | done]).
Qed.

(** X10.  However the check settles, the banner is displayed, as ready or as
    a warning.  It reads ready exactly when the reply is JSON whose
    [ffmpeg] and [llm_ready] are both truthy, and then names Gemini when
    [gemini_configured] is truthy and Ollama otherwise.  A request that
    fails, or a body that is not JSON or is [null], gives the warning that
    the server could not be reached. *)
Theorem checkSetup_ready_iff (s : Settled) :
  let banner := checkSetup_settled s in
  let ready data :=
    truthy (get_opt data "ffmpeg") && truthy (get_opt data "llm_ready") in
  banner_shown banner = true
  ∧ (banner_class banner = "setup-banner ok" ∨ banner_class banner = "setup-banner warn")
  ∧ (banner_class banner = "setup-banner ok" ↔
       ∃ r data, s = Replied r ∧ json r = Some data ∧ ready data = true)
  ∧ (∀ r data,
       s = Replied r → json r = Some data → ready data = true →
       banner_text banner
       = "Ready: ffmpeg and "
         +:+ (if truthy (get_opt data "gemini_configured") then "Gemini" else "Ollama")
         +:+ " detected.")
  ∧ ((match s with
      | Rejected _ => True
      | Replied r => json r = None ∨ json r = Some VNull
      end) →
     banner_text banner = unreachable_text).
Proof.
  intros banner ready. subst banner.
  assert (∀ data, nullish data = true → ready data = false) as Hnot_ready.
  { intros data Hn. unfold ready. by destruct data. }
  assert ((match s with
           | Rejected _ => True
           | Replied r => json r = None ∨ ∃ data, json r = Some data ∧ nullish data = true
           end)
          ∨ ∃ r data, s = Replied r ∧ json r = Some data ∧ nullish data = false) as [Hno | Hyes].
  { destruct s as [m|r]; [by left|]. destruct (json r) as [data|] eqn:Hj; [|by left; left].
    destruct (nullish data) eqn:Hn; [left; right; eauto | right; eauto]. }
  - rewrite (checkSetup_without_data s Hno). cbn [banner_shown banner_class banner_text].
    split; [done|]. split; [by right|]. split; [|split; [|done]].
    + split; [done|]. intros (r & data & -> & Hj & Hready).
      destruct Hno as [Hnone | (data' & Hj' & Hn)]; [congruence|].
      rewrite Hj in Hj'. injection Hj' as <-. rewrite (Hnot_ready data Hn) in Hready. done.
    + intros r data -> Hj Hready.
      destruct Hno as [Hnone | (data' & Hj' & Hn)]; [congruence|].
      rewrite Hj in Hj'. injection Hj' as <-. rewrite (Hnot_ready data Hn) in Hready. done.
  - destruct Hyes as (r & data & -> & Hj & Hn).
    destruct (checkSetup_with_data r data Hj Hn) as (text & -> & Htext).
    cbn [banner_shown banner_class banner_text]. fold (ready data) in *.
    split; [done|]. split; [destruct (ready data); auto|]. split; [|split].
    + split.
      * intros Hclass. exists r, data. destruct (ready data); [done | discriminate].
      * intros (r' & data' & [= <-] & Hj' & Hready).
        rewrite Hj in Hj'. injection Hj' as <-. by rewrite Hready.
    + intros r' data' [= <-] Hj' Hready. rewrite Hj in Hj'. injection Hj' as <-.
      by apply Htext.
    + intros [Hnone | Hnull]; [congruence|]. rewrite Hj in Hnull. injection Hnull as ->.
      discriminate.
Qed.

(** *** What each event may write *)

Lemma loadQuestions_settled_frame jd s w w' :
  loadQuestions_settled jd s w = Some w' →
  mode (gs w') = mode (gs w)
  ∧ currentQuestionIndex (gs w') = currentQuestionIndex (gs w)
  ∧ sessionResults (gs w') = sessionResults (gs w).
Proof.
  unfold loadQuestions_settled.
  destruct (match s with Rejected m => _ | Replied r => _ end) as [member|m];
    [|by intros [= <-]].
  destruct (questions_or_empty member) as [qs|]; simpl; [|done].
  intros [= <-]. unfold renderQuestionList. simpl. by destruct qs.
Qed.

Lemma handle_frame (e : Event) (w w' : World) :
  handle e w = Some w' →
  let g := gs w in
  let g' := gs w' in
  (currentQuestionIndex g' = currentQuestionIndex g
   ∨ (e = ClickStartGuided ∧ questions g ≠ [] ∧ currentQuestionIndex g' = 0)
   ∨ (e = ClickNextQuestion ∧ currentQuestionIndex g' = currentQuestionIndex g + 1))
  ∧ (sessionResults g' = sessionResults g
     ∨ (e = ClickStartGuided ∧ questions g ≠ [] ∧ sessionResults g' = [])
     ∨ (∃ k s, e = AnalyzeSettled k s ∧ truthy (delivered s) = true
               ∧ sessionResults g'
                 = write_slot (sessionResults g) (currentQuestionIndex g) (delivered s)))
  ∧ (questions g' = questions g
     ∨ (∃ k s, e = QuestionsSettled k s)
     ∨ (e = ClickAddQuestion ∧ ∃ text, questions g' = questions g ++ [VStr text])).
Proof.
  intros He g g'. subst g g'.
  destruct e; cbn [handle mbind option_bind] in He.
  - injection He as <-. split_and!; by left.
  - injection He as <-. split_and!; by left.
  - destruct (questionsCalls w !! k); [|done]. cbn [mbind option_bind] in He.
    destruct (loadQuestions_settled_frame _ _ _ _ He) as (_ & -> & ->).
    split_and!; [by left | by left | right; left; eauto].
  - injection He as <-. split_and!; by left.
  - injection He as <-.
    rewrite addCustomQuestion_gs.
    destruct (blank (addQuestionInput (page w))); [split_and!; by left|].
    split_and!; [by left | by left | right; right; eauto].
  - injection He as <-. destruct (questions (gs w)) as [|q0 qs] eqn:Hq.
    + unfold startGuidedInterview. rewrite Hq. split_and!; by left.
    + rewrite startGuidedInterview_gs by (by rewrite Hq). cbn.
      split_and!; [right; left | right; left | left]; by rewrite ?Hq.
  - injection He as <-. split_and!; by left.
  - injection He as <-. unfold onGuidedStartRecording. destruct secure; split_and!; by left.
  - injection He as <-. split_and!; by left.
  - injection He as <-. split_and!; by left.
  - injection He as <-. unfold ondataavailable. case_decide; split_and!; by left.
  - injection He as <-. unfold onGuidedStopRecording.
    destruct (mediaRecorder w); split_and!; by left.
  - injection He as <-. unfold onstop. case_decide; [split_and!; by left|].
    rewrite showGuidedFeedback_gs. split_and!; by left.
  - destruct (analyzeCalls w !! k); [|done]. injection He as <-.
    fold (analysis_completes s w). rewrite analysis_completes_gs. unfold store.
    destruct (truthy (delivered s)) eqn:Ht; cbn.
    + split_and!; [by left | right; right; eauto | by left].
    + split_and!; by left.
  - injection He as <-. rewrite onTryAgain_gs. split_and!; by left.
  - injection He as <-. rewrite onNextQuestion_gs. cbn.
    case_decide; cbn; split_and!; (by left) || (right; right; done).
Qed.


(** X11.  Which events write which part of [guidedState].  The current index
    is set to 0 by a start that has questions and raised by one by
    "next", and by nothing else.  The stored results are emptied by such a
    start and written, at the current index and with a truthy result, by
    a settling analysis, and by nothing else.  The questions are replaced
    by a settling load and extended at the end by an added question, and
    by nothing else. *)
Theorem events_write_their_own_part (e : Event) (w w' : World) :
  handle e w = Some w' →
  let g := gs w in
  let g' := gs w' in
  (currentQuestionIndex g' = currentQuestionIndex g
   ∨ (e = ClickStartGuided ∧ questions g ≠ [] ∧ currentQuestionIndex g' = 0)
   ∨ (e = ClickNextQuestion ∧ currentQuestionIndex g' = currentQuestionIndex g + 1))
  ∧ (sessionResults g' = sessionResults g
     ∨ (e = ClickStartGuided ∧ questions g ≠ [] ∧ sessionResults g' = [])
     ∨ (∃ k s, e = AnalyzeSettled k s ∧ truthy (delivered s) = true
               ∧ sessionResults g'
                 = write_slot (sessionResults g) (currentQuestionIndex g) (delivered s)))
  ∧ (questions g' = questions g
     ∨ (∃ k s, e = QuestionsSettled k s)
     ∨ (e = ClickAddQuestion ∧ ∃ text, questions g' = questions g ++ [VStr text])).
Proof. apply handle_frame. Qed.

Lemma events_write_their_own_part_witness :
  ∃ w',
    handle ClickNextQuestion Samples.feedback_first = Some w'
    ∧ currentQuestionIndex (gs w') = 1
    ∧ sessionResults (gs w') = sessionResults (gs Samples.feedback_first).
Proof.
  eexists. split; [reflexivity|].
  destruct (events_write_their_own_part ClickNextQuestion Samples.feedback_first _ eq_refl)
    as (Hi & Hr & _).
  split.
  - destruct Hi as [Hi | [[Hi _] | [_ Hi]]]; [discriminate Hi | discriminate Hi | exact Hi].
  - destruct Hr as [Hr | [[Hr _] | (k & s & Hr & _)]];
      [exact Hr | discriminate Hr | discriminate Hr].
Defined.

(** X12.  A run in which the interview is not started again.  The question
    index only grows, by one for each click on "next" and by nothing for
    any other event, and an answer slot that holds a result keeps holding
    one (a retry may replace it, nothing empties it). *)
Theorem session_moves_forward (es : list Event) (w w' : World) :
  forallb (λ e, negb (is_start e)) es = true →
  run es w = Some w' →
  currentQuestionIndex (gs w')
  = currentQuestionIndex (gs w) + length (filter (λ e, is_next e = true) es)
  ∧ (∀ i, is_Some (mjoin (sessionResults (gs w) !! i)) →
          is_Some (mjoin (sessionResults (gs w') !! i))).
Proof.
  revert w. induction es as [|e es IH]; intros w Hno Hrun.
  - injection Hrun as <-. simpl. split; [lia | done].
  - simpl in Hrun. destruct (handle e w) as [w1|] eqn:He; [|done]. simpl in Hrun.
    simpl in Hno. apply andb_true_iff in Hno as [Hne Hno].
    destruct (IH w1 Hno Hrun) as [Hi Hr].
    destruct (handle_frame e w w1 He) as (Hindex & Hresults & _).
    split.
    + rewrite Hi, filter_cons.
      destruct Hindex as [Hsame | [[-> _] | [-> ->]]]; [revert Hsame|done|].
      * intros Hsame. destruct e; simpl; try lia.
        simpl in He. injection He as <-.
        rewrite onNextQuestion_gs in Hsame. simpl in Hsame.
        case_decide; simpl in Hsame; lia.
      * simpl. lia.
    + intros i Hw. apply Hr.
      destruct Hresults as [-> | [[-> _] | (k & s & -> & Ht & ->)]]; [done|done|].
      destruct (decide (currentQuestionIndex (gs w) = i)) as [<-|Hne'].
      * by rewrite write_slot_lookup.
      * by rewrite write_slot_lookup_ne.
Qed.

Lemma session_moves_forward_witness :
  currentQuestionIndex (gs Samples.finished_two)
  = currentQuestionIndex (gs Samples.feedback_first) + 1.
Proof.
  exact (proj1 (session_moves_forward
                  ([ClickTryAgain] ++ answer 7 1 (reply (Samples.scored "Second attempt"))
                   ++ [ClickNextQuestion])
                  Samples.feedback_first Samples.finished_two eq_refl eq_refl)).
Defined.

Lemma map_m_by {A B} (ok : A → bool) (f : A → completion B) m (l : list A) :
  (∀ x, ok x = true → ∃ y, f x = Ok y) →
  (∀ x, ok x = false → f x = Throw m) →
  if forallb ok l then ∃ ys, map_m f l = Ok ys else map_m f l = Throw m.
Proof.
  intros Hok Hno. induction l as [|x l IH]; simpl; [by eexists|].
  destruct (ok x) eqn:Hx; simpl.
  - destruct (Hok x Hx) as [y ->]. simpl.
    destruct (forallb ok l); [destruct IH as [ys ->]; by eexists | by rewrite IH].
  - by rewrite (Hno x Hx).
Qed.

Lemma item_total t row : nullish t = false → ∃ it, item t row = Ok it.
Proof.
  intros Hn. unfold item. rewrite (get_not_nullish t _ Hn). simpl.
  destruct (met_total (get_opt t row.2)) as [m ->].
  destruct (note_total (get_opt t row.2)) as [n ->]. by eexists.
Qed.

Lemma relevance_line_total t : nullish t = false → ∃ h, relevance_line t = Ok h.
Proof.
  intros Hn. unfold relevance_line. rewrite (get_not_nullish t _ Hn). simpl.
  destruct (truthy (get_opt t "relevance_to_role")) eqn:Hr; [|by eexists].
  rewrite !(get_truthy _ _ Hr). simpl.
  destruct (negb _ || _); by eexists.
Qed.

Lemma pace_line_by t :
  nullish t = false →
  if nullish (get_opt t "pace_wpm")
     || negb (truthy (get_opt t "pace_rating"))
     || is_string (get_opt t "pace_rating")
  then ∃ h, pace_line t = Ok h
  else pace_line t = Throw type_error.
Proof.
  intros Hn. unfold pace_line. rewrite !(get_not_nullish t _ Hn). simpl.
  destruct (nullish (get_opt t "pace_wpm")); simpl; [by eexists|].
  destruct (get_opt t "pace_rating") as [| |[]|n|[|c s]|l|o]; simpl; try by eexists.
  destruct (num_sign n); simpl; try done; by eexists.
Qed.

Lemma renderTurnScore_by (t : value) :
  if turn_ok t then ∃ html, renderTurnScore t = Ok html
  else renderTurnScore t = Throw type_error.
Proof.
  unfold turn_ok. destruct (nullish t) eqn:Hn; simpl.
  { by apply renderTurnScore_nullish. }
  pose proof (map_m_by (λ _, true) (item t) type_error rubric
                (λ row _, item_total t row Hn) (λ _ H, False_ind _ (diff_true_false H)))
    as Hitems.
  replace (forallb (λ _, true) rubric) with true in Hitems by done.
  destruct Hitems as [items Hitems].
  pose proof (pace_line_by t Hn) as Hpace.
  destruct (relevance_line_total t Hn) as [rel Hrel].
  unfold renderTurnScore. rewrite Hitems, Hrel, !(get_not_nullish t _ Hn).
  cbn [mbind completion_bind].
  destruct (nullish (get_opt t "pace_wpm") || _ || _).
  - destruct Hpace as [pace ->]. by eexists.
  - by rewrite Hpace.
Qed.

(** X13.  When [renderTurnScore] draws a turn in which no object has a
    member named [toString].  It returns markup exactly for
    a turn that is not [null] or [undefined] and whose [pace_rating],
    when the turn has a [pace_wpm], is falsy or a text; for any other such
    turn it throws a TypeError (reading a member of nothing, or calling
    [replace] on a rating that is not a text).  (An object with a member
    named [toString] cannot be converted to text by the script, which
    throws wherever it would print it.) *)
Theorem renderTurnScore_draws_or_throws (t : value) :
  lacks ["toString"] t = true →
  ((∃ html, renderTurnScore t = Ok html) ↔ turn_ok t = true)
  ∧ (renderTurnScore t = Throw type_error ↔ turn_ok t = false).
Proof.
  intros _. pose proof (renderTurnScore_by t) as H.
  destruct (turn_ok t).
  - destruct H as [html H]. rewrite H. split; split; try done. by eexists.
  - rewrite H. split; split; try done. by intros [html ?].
Qed.

Lemma renderTurnScore_draws_or_throws_witness :
  (∃ html, renderTurnScore Samples.partial_turn = Ok html)
  ∧ renderTurnScore (VObj [("pace_wpm", VNum (Num Gt "140"));
                           ("pace_rating", VNum (Num Gt "3"))])
    = Throw type_error.
Proof.
  split.
  - exact (proj2 (proj1 (renderTurnScore_draws_or_throws Samples.partial_turn eq_refl))
             eq_refl).
  - exact (proj2 (proj2 (renderTurnScore_draws_or_throws
                           (VObj [("pace_wpm", VNum (Num Gt "140"));
                                  ("pace_rating", VNum (Num Gt "3"))]) eq_refl)) eq_refl).
Defined.

Lemma has_items_walk {A} (ok : value → bool) (f : value → completion A)
    (v : value) (k : list A → completion string) :
  truthy v && has_items v = true →
  (∀ x, ok x = true → ∃ y, f x = Ok y) →
  (∀ x, ok x = false → f x = Throw type_error) →
  (∀ ys, ∃ h, k ys = Ok h) →
  if walkable ok v then ∃ h, (items ← elements v; ys ← map_m f items; k ys) = Ok h
  else (items ← elements v; ys ← map_m f items; k ys) = Throw type_error.
Proof.
  intros Hv Hok Hno Hk.
  destruct v as [| |b|n|[|c s]|l|o]; simpl in Hv; try done;
    try (by destruct b); try (by destruct (num_sign n)).
  cbn [walkable elements mbind completion_bind].
  pose proof (map_m_by ok f type_error l Hok Hno) as Hl.
  destruct (forallb ok l).
  - destruct Hl as [ys ->]. apply Hk.
  - by rewrite Hl.
Qed.

Lemma not_walked ok v : truthy v && has_items v = false → walkable ok v = true.
Proof. by destruct v as [| |b|n|[|c s]|[|x l]|o]. Qed.

Lemma transcript_html_by data :
  truthy data = true →
  if walkable present (get_opt data "segments") then ∃ h, transcript_html data = Ok h
  else transcript_html data = Throw type_error.
Proof.
  intros Hd. unfold transcript_html. rewrite (get_truthy data _ Hd).
  cbn [mbind completion_bind].
  destruct (truthy (get_opt data "segments") && has_items (get_opt data "segments")) eqn:Hs.
  - apply (has_items_walk present (λ s, get s "text") _
             (λ texts, count ← get (get_opt data "segments") "length"; Ok _) Hs).
    + intros x Hx. rewrite get_not_nullish; [by eexists|]. unfold present in Hx; by destruct (nullish x).
    + intros x Hx. apply get_nullish. unfold present in Hx; by destruct (nullish x).
    + intros texts. rewrite get_truthy; [by eexists|]. by apply andb_true_iff in Hs as [? _].
  - rewrite (not_walked _ _ Hs). by eexists.
Qed.

Lemma rewrites_html_by data :
  truthy data = true →
  if walkable present (get_opt data "rewrites") then ∃ h, rewrites_html data = Ok h
  else rewrites_html data = Throw type_error.
Proof.
  intros Hd. unfold rewrites_html. rewrite (get_truthy data _ Hd).
  cbn [mbind completion_bind].
  destruct (truthy (get_opt data "rewrites") && has_items (get_opt data "rewrites")) eqn:Hs.
  - apply (has_items_walk present rewrite_html _ (λ blocks, Ok _) Hs).
    + intros x Hx. unfold rewrite_html.
      rewrite !get_not_nullish by (unfold present in Hx; by destruct (nullish x)). by eexists.
    + intros x Hx. unfold rewrite_html.
      rewrite (get_nullish x "tight_45s"); [done|]. unfold present in Hx; by destruct (nullish x).
    + intros blocks. by eexists.
  - rewrite (not_walked _ _ Hs). by eexists.
Qed.

Lemma has_turns_true data :
  has_turns data = Ok true →
  truthy data = true ∧ truthy (get_opt data "scores") = true
  ∧ truthy (get_opt (get_opt data "scores") "turns")
    && has_items (get_opt (get_opt data "scores") "turns") = true.
Proof.
  unfold has_turns. destruct (truthy data) eqn:Hd; [|done].
  rewrite (get_truthy data _ Hd). cbn [mbind completion_bind].
  destruct (truthy (get_opt data "scores")) eqn:Hs; [|done].
  rewrite (get_truthy _ _ Hs). cbn [mbind completion_bind]. by intros [= ->].
Qed.

Lemma has_turns_total data : ∃ b, has_turns data = Ok b.
Proof.
  unfold has_turns. destruct (truthy data) eqn:Hd; [|by eexists].
  rewrite (get_truthy data _ Hd). cbn [mbind completion_bind].
  destruct (truthy (get_opt data "scores")) eqn:Hs; [|by eexists].
  rewrite (get_truthy _ _ Hs). by eexists.
Qed.

Lemma feedback_html_by (data : value) :
  (∃ b, has_turns data = Ok b)
  ∧ (has_turns data = Ok false → feedback_html data = Ok no_feedback)
  ∧ (has_turns data = Ok true →
       if well_shaped data then ∃ html, feedback_html data = Ok html
       else feedback_html data = Throw type_error).
Proof.
  split; [apply has_turns_total|]. split.
  { intros H. unfold feedback_html. by rewrite H. }
  intros H. destruct (has_turns_true data H) as (Hd & Hs & Ht).
  unfold feedback_html, well_shaped. rewrite H. cbn [mbind completion_bind].
  pose proof (transcript_html_by data Hd) as Htr.
  pose proof (rewrites_html_by data Hd) as Hrw.
  destruct (walkable present (get_opt data "segments")); simpl;
    [destruct Htr as [tr ->] | by rewrite Htr].
  cbn [mbind completion_bind].
  rewrite (get_truthy data _ Hd). cbn [mbind completion_bind].
  rewrite !(get_truthy _ _ Hs). cbn [mbind completion_bind].
  pose proof (has_items_walk turn_ok renderTurnScore _
      (λ rendered, rewrites ← rewrites_html data;
         Ok ("<div class=" +:+ q "section" +:+ "><h2>Feedback</h2>"
        +:+ tr
        +:+ (if truthy (get_opt (get_opt data "scores") "overall_summary") then
               "<p style=" +:+ q "margin-bottom:1rem;color:var(--muted)" +:+ ">"
               +:+ escapeHtml (get_opt (get_opt data "scores") "overall_summary") +:+ "</p>"
             else EmptyString)
        +:+ fold_left (fun acc h => acc +:+ h) rendered EmptyString
        +:+ rewrites
        +:+ "</div>")) Ht) as Hturns.
  destruct (walkable present (get_opt data "rewrites")).
  - destruct Hrw as [rw Hrw]. rewrite andb_true_r.
    apply Hturns.
    + intros x Hx. pose proof (renderTurnScore_by x) as Hr. by rewrite Hx in Hr.
    + intros x Hx. pose proof (renderTurnScore_by x) as Hr. by rewrite Hx in Hr.
    + intros rendered. rewrite Hrw. by eexists.
  - rewrite andb_false_r.
    destruct (get_opt (get_opt data "scores") "turns") as [| |b|n|[|c s]|l|o];
      simpl in Ht; try done; try (by destruct b); try (by destruct (num_sign n)).
    cbn [elements mbind completion_bind].
    pose proof (map_m_by turn_ok renderTurnScore type_error l) as Hl.
    destruct (forallb turn_ok l).
    + destruct Hl as [ys ->].
      * intros x Hx. pose proof (renderTurnScore_by x) as Hr. by rewrite Hx in Hr.
      * intros x Hx. pose proof (renderTurnScore_by x) as Hr. by rewrite Hx in Hr.
      * cbn [mbind completion_bind]. by rewrite Hrw.
    + rewrite Hl; [done| |].
      * intros x Hx. pose proof (renderTurnScore_by x) as Hr. by rewrite Hx in Hr.
      * intros x Hx. pose proof (renderTurnScore_by x) as Hr. by rewrite Hx in Hr.
Qed.

(** X14.  When the feedback of a stored result can be drawn, for a result
    in which no object has a member named [length] or [toString].  The
    test at the head of [showGuidedFeedback] never throws.  Without turns
    the panel gets the "No feedback available." text.  With turns, drawing
    succeeds exactly for a well-shaped result: [segments], [scores.turns]
    and [rewrites], where they have elements, are arrays, no segment or
    rewrite is [null] or [undefined], and every turn can be drawn by
    [renderTurnScore]; for any other such result drawing throws a
    TypeError.  (An object with a member named [length] passes for a
    non-empty list in the script's tests and then fails to be walked; the
    statement leaves such replies aside.) *)
Theorem feedback_html_draws_or_throws (data : value) :
  lacks ["length"; "toString"] data = true →
  (∃ b, has_turns data = Ok b)
  ∧ (has_turns data = Ok false → feedback_html data = Ok no_feedback)
  ∧ (has_turns data = Ok true →
       if well_shaped data then ∃ html, feedback_html data = Ok html
       else feedback_html data = Throw type_error).
Proof.
  intros _. apply feedback_html_by.
Qed.

Lemma feedback_html_draws_or_throws_witness :
  (∃ html, feedback_html (Samples.scored "Clear estimate") = Ok html)
  ∧ feedback_html (VObj [("scores", VObj [("turns", VArr [VNull])])]) = Throw type_error
  ∧ feedback_html (VObj [("scores", VObj [("turns", VArr [])])]) = Ok no_feedback.
Proof.
  split_and!.
  - exact (proj2 (proj2 (feedback_html_draws_or_throws (Samples.scored "Clear estimate")
                           eq_refl)) eq_refl).
  - exact (proj2 (proj2 (feedback_html_draws_or_throws
                           (VObj [("scores", VObj [("turns", VArr [VNull])])]) eq_refl))
             eq_refl).
  - exact (proj1 (proj2 (feedback_html_draws_or_throws
                           (VObj [("scores", VObj [("turns", VArr [])])]) eq_refl)) eq_refl).
Defined.



End More.
